(** * dbot: the multi-body state vector and the rigid-body renderer

    A shallow embedding of
      - include/state_filtering/system_states/full_rigid_body_system.hpp
      - include/dbot/util/rigid_body_renderer.hpp
    and the properties of them that the specification states.

    Conventions.
      - C++ [double] and [float] values are IEEE-754 binary64 and binary32
        numbers, represented by [spec_float] (sign, mantissa, exponent);
        arithmetic is the correctly rounded one of [SpecFloat].
      - [unsigned] is a Z reduced modulo 2^32, [size_t] a Z reduced modulo
        2^64, Eigen's [Index] a signed 64-bit Z.
      - An Eigen vector is the list of its coefficients.  A block expression
        ([VectorBlock], [middleRows]) that leaves the vector trips Eigen's
        range assertion; such an operation yields [None]. *)

From Stdlib Require Import ZArith SpecFloat Lia.
From stdpp Require Import base option list numbers.

Local Open Scope Z_scope.

(** ** Machine integers *)

Definition wrap_unsigned (z : Z) : Z := z mod 2 ^ 32.
Definition wrap_size_t (z : Z) : Z := z mod 2 ^ 64.

(** Conversion of a [size_t] to Eigen's signed [Index]. *)
Definition Index_of_size_t (z : Z) : Z :=
  if z <? 2 ^ 63 then z else z - 2 ^ 64.

Definition INT_MAX : Z := 2 ^ 31 - 1.

(** ** Floating-point scalars *)

Abbreviation double := spec_float.
Abbreviation float := spec_float.

Module F64.
Definition prec : Z := 53.
Definition emax : Z := 1024.
Definition zero : double := S754_zero false.
Definition one : double := Eval cbv in SFone prec emax.
Definition add : double -> double -> double := SFadd prec emax.
Definition mul : double -> double -> double := SFmul prec emax.
Definition sqrt : double -> double := SFsqrt prec emax.
End F64.

Module F32.
Definition prec : Z := 24.
Definition emax : Z := 128.
Definition zero : float := S754_zero false.
Definition one : float := Eval cbv in SFone prec emax.
Definition minus_one : float := Eval cbv in SFopp one.
Definition infinity : float := S754_infinity false.
Definition ltb : float -> float -> bool := SFltb.
End F32.

(** [std::isfinite]: zeros, subnormal and normal numbers are finite,
    infinities and NaN are not. *)
Definition isfinite (v : spec_float) : bool :=
  match v with
  | S754_zero _ | S754_finite _ _ _ => true
  | S754_infinity _ | S754_nan => false
  end.

(** ** Eigen vectors and blocks *)

Abbreviation StateVector := (list double).

(** [StateVector::Zero(n)]; the constructors call it with sizes that are
    not negative. *)
Definition Zero (n : Z) : StateVector := replicate (Z.to_nat n) F64.zero.

Definition rows (v : StateVector) : Z := Z.of_nat (length v).

(** The range assertion of a block of [n] rows starting at [start]. *)
Definition block_in_range (v : StateVector) (start n : Z) : bool :=
  (0 <=? start) && (start + n <=? rows v).

(** Reading a block: [v.middleRows<n>(start)] as a value. *)
Definition middleRows (v : StateVector) (start n : Z) : option (list double) :=
  if block_in_range v start n
  then Some (take (Z.to_nat n) (drop (Z.to_nat start) v))
  else None.

(** Assigning through a block: [v.middleRows<n>(start) = vals]. *)
Definition assign_block (v : StateVector) (start : Z) (vals : list double)
  : option StateVector :=
  if block_in_range v start (Z.of_nat (length vals))
  then Some (list_inserts (Z.to_nat start) vals v)
  else None.

Module Eigen.

(** [Eigen::Quaterniond] keeps its four coefficients in the order
    x, y, z, w; [coeffs()] exposes them in that order and the constructor
    from a 4-vector reads them in that order. *)
Record Quaternion : Type := mkQuaternion
  { qx : double; qy : double; qz : double; qw : double }.

Definition Identity : Quaternion :=
  {| qx := F64.zero; qy := F64.zero; qz := F64.zero; qw := F64.one |}.

Definition coeffs (q : Quaternion) : list double :=
  [qx q; qy q; qz q; qw q].

Definition Quaternion_of_vector (v : list double) : option Quaternion :=
  match v with
  | [a; b; c; d] => Some (mkQuaternion a b c d)
  | _ => None
  end.

(** [squaredNorm()] and [norm()] of a vector, in binary64. *)
Definition squaredNorm (v : list double) : double :=
  fold_left (fun acc c => F64.add acc (F64.mul c c)) v F64.zero.

Definition norm (v : list double) : double := F64.sqrt (squaredNorm v).

End Eigen.

(** ** The base class of the state *)

Module RigidBodySystem.

(** Modelled from the spec: the base class [RigidBodySystem]
    (state_filtering/system_states/rigid_body_system.hpp), of which the
    sources hold only the use.  It is the flat ordered sequence of
    scalars together with the body count fixed at construction time, and
    it answers the two queries "state size" and "body count". *)
Record t : Type := Base
  { vector : StateVector;
    count_bodies_ : Z }.

(** Modelled from the spec: the state size query of the base class, the
    number of scalars of the flat sequence. *)
Definition countState (s : t) : Z := rows (vector s).

(** Modelled from the spec: the body count query of the base class, the
    count given at construction. *)
Definition countBodies (s : t) : Z := count_bodies_ s.

End RigidBodySystem.

(** ** full_rigid_body_system.hpp *)

Module FullRigidBodySystem.

Import RigidBodySystem.

(** [FullRigidBodySystemTypes]: the layout constants. *)
Definition COUNT_PER_BODY : Z := 13.
Definition POSITION_INDEX : Z := 0.
Definition POSITION_COUNT : Z := 3.
Definition ORIENTATION_INDEX : Z := 3.
Definition ORIENTATION_COUNT : Z := 4.
Definition LINEAR_VELOCITY_INDEX : Z := 7.
Definition LINEAR_VELOCITY_COUNT : Z := 3.
Definition ANGULAR_VELOCITY_INDEX : Z := 10.
Definition ANGULAR_VELOCITY_COUNT : Z := 3.

(** The class adds no field to its base. *)
Definition t : Type := RigidBodySystem.t.

(** [virtual unsigned countState() const] and
    [virtual unsigned countBodies() const]. *)
Definition countState (s : t) : Z :=
  wrap_unsigned (RigidBodySystem.countState s).
Definition countBodies (s : t) : Z :=
  wrap_unsigned (RigidBodySystem.countBodies s).

(** [object_index * COUNT_PER_BODY + field_index]: [object_index] is a
    [size_t], so the arithmetic is that of [size_t]; Eigen receives the
    result as an [Index]. *)
Definition block_start (object_index field_index : Z) : Z :=
  Index_of_size_t
    (wrap_size_t (wrap_size_t (object_index * COUNT_PER_BODY) + field_index)).

(** *** The get functions (values) *)

Definition get_position (s : t) (object_index : Z) : option (list double) :=
  middleRows (vector s) (block_start object_index POSITION_INDEX)
    POSITION_COUNT.

Definition get_orientation (s : t) (object_index : Z) : option (list double) :=
  middleRows (vector s) (block_start object_index ORIENTATION_INDEX)
    ORIENTATION_COUNT.

Definition get_quaternion (s : t) (object_index : Z)
  : option Eigen.Quaternion :=
  get_orientation s object_index ≫= Eigen.Quaternion_of_vector.

Definition get_linear_velocity (s : t) (object_index : Z)
  : option (list double) :=
  middleRows (vector s) (block_start object_index LINEAR_VELOCITY_INDEX)
    LINEAR_VELOCITY_COUNT.

Definition get_angular_velocity (s : t) (object_index : Z)
  : option (list double) :=
  middleRows (vector s) (block_start object_index ANGULAR_VELOCITY_INDEX)
    ANGULAR_VELOCITY_COUNT.

(** *** The writable views

    An [Eigen::VectorBlock<StateVector, N>] is a window of [N] rows on the
    storage of the state it was taken from: it holds no scalars of its
    own.  Its constructor asserts that the window lies in the vector. *)
Record VectorBlock : Type := mkVectorBlock
  { startRow : Z;
    blockRows : Z }.

Definition VectorBlock_of (s : t) (start n : Z) : option VectorBlock :=
  if block_in_range (vector s) start n
  then Some (mkVectorBlock start n)
  else None.

Definition position (s : t) (object_index : Z) : option VectorBlock :=
  VectorBlock_of s (block_start object_index POSITION_INDEX) POSITION_COUNT.

Definition orientation (s : t) (object_index : Z) : option VectorBlock :=
  VectorBlock_of s (block_start object_index ORIENTATION_INDEX)
    ORIENTATION_COUNT.

Definition linear_velocity (s : t) (object_index : Z) : option VectorBlock :=
  VectorBlock_of s (block_start object_index LINEAR_VELOCITY_INDEX)
    LINEAR_VELOCITY_COUNT.

Definition angular_velocity (s : t) (object_index : Z) : option VectorBlock :=
  VectorBlock_of s (block_start object_index ANGULAR_VELOCITY_INDEX)
    ANGULAR_VELOCITY_COUNT.

(** [operator[]] *)
Definition single_body (s : t) (object_index : Z) : option VectorBlock :=
  VectorBlock_of s
    (Index_of_size_t (wrap_size_t (object_index * COUNT_PER_BODY)))
    COUNT_PER_BODY.

(** The flat indices a view covers. *)
Definition block_indices (b : VectorBlock) : list Z :=
  seqZ (startRow b) (blockRows b).

(** Reading the scalars under a view, and assigning a vector of the
    view's size through it: the state the view is bound to changes. *)
Definition read (s : t) (b : VectorBlock) : option (list double) :=
  middleRows (vector s) (startRow b) (blockRows b).

Definition write (s : t) (b : VectorBlock) (vals : list double) : option t :=
  if decide (Z.of_nat (length vals) = blockRows b)
  then v ← assign_block (vector s) (startRow b) vals;
       Some (Base v (count_bodies_ s))
  else None.

(** *** Construction *)

(** The loop of [reset_quaternions], with [n] iterations left:
    [middleRows<4>(object_index * COUNT_PER_BODY + 3) =
     Quaternion::Identity().coeffs()].  The assignments leave the body count
    as it is, so the loop makes [countBodies()] iterations. *)
Fixpoint reset_quaternions_from (n : nat) (object_index : Z) (v : StateVector)
  : option StateVector :=
  match n with
  | O => Some v
  | S n' =>
      v' ← assign_block v (block_start object_index 3)
             (Eigen.coeffs Eigen.Identity);
      reset_quaternions_from n' (wrap_size_t (object_index + 1)) v'
  end.

Definition reset_quaternions (s : t) : option t :=
  v ← reset_quaternions_from (Z.to_nat (countBodies s)) 0 (vector s);
  Some (Base v (count_bodies_ s)).

(** [FullRigidBodySystem<body_size>()]: the static assertion wants
    [body_size > -1]; [SIZE_STATE] is the size parameter of the base,
    [body_size * COUNT_PER_BODY], an [int] constant expression. *)
Definition new_fixed (body_size : Z) : option t :=
  if (-1 <? body_size) && (body_size * COUNT_PER_BODY <=? INT_MAX)
  then reset_quaternions
         (Base (Zero (body_size * COUNT_PER_BODY)) body_size)
  else None.

(** [FullRigidBodySystem<-1>(unsigned count_bodies)]. *)
Definition new_dynamic (count_bodies : Z) : option t :=
  let count_bodies := wrap_unsigned count_bodies in
  reset_quaternions
    (Base (Zero (wrap_unsigned (count_bodies * COUNT_PER_BODY)))
          count_bodies).

(** [FullRigidBodySystem<-1>(state_vector)]: the body of the constructor
    is empty. *)
Definition new_from_vector (state_vector : StateVector) : option t :=
  Some (Base state_vector (rows state_vector ÷ COUNT_PER_BODY)).

(** The three ways to construct a state. *)
Inductive Construction : Type :=
| Fixed (body_size : Z)
| Dynamic (count_bodies : Z)
| FromVector (state_vector : StateVector).

Definition construct (c : Construction) : option t :=
  match c with
  | Fixed body_size => new_fixed body_size
  | Dynamic count_bodies => new_dynamic count_bodies
  | FromVector state_vector => new_from_vector state_vector
  end.

(** The five writable accessors. *)
Inductive Accessor : Type :=
| APosition | AOrientation | ALinearVelocity | AAngularVelocity
| ASingleBody.

Definition view (a : Accessor) : t -> Z -> option VectorBlock :=
  match a with
  | APosition => position
  | AOrientation => orientation
  | ALinearVelocity => linear_velocity
  | AAngularVelocity => angular_velocity
  | ASingleBody => single_body
  end.

Definition accessor_index (a : Accessor) : Z :=
  match a with
  | APosition => POSITION_INDEX
  | AOrientation => ORIENTATION_INDEX
  | ALinearVelocity => LINEAR_VELOCITY_INDEX
  | AAngularVelocity => ANGULAR_VELOCITY_INDEX
  | ASingleBody => 0
  end.

Definition accessor_count (a : Accessor) : Z :=
  match a with
  | APosition => POSITION_COUNT
  | AOrientation => ORIENTATION_COUNT
  | ALinearVelocity => LINEAR_VELOCITY_COUNT
  | AAngularVelocity => ANGULAR_VELOCITY_COUNT
  | ASingleBody => COUNT_PER_BODY
  end.

(** Every body block lies in the vector. *)
Definition well_formed (s : t) : Prop :=
  COUNT_PER_BODY * countBodies s <= rows (vector s).

(** *** Vocabulary of the statements *)

(** The scalar at a flat index, and the scalars at a list of them. *)
Definition flat (s : t) (j : Z) : option double := vector s !! Z.to_nat j.

Definition components (s : t) (js : list Z) : option (list double) :=
  mapM (flat s) js.

(** A view was obtained, it spans exactly the flat indices [js], and the
    scalars under it are those of the state at [js]. *)
Definition covers (s : t) (v : option VectorBlock) (js : list Z) : Prop :=
  exists b xs,
    v = Some b /\ block_indices b = js /\
    read s b = Some xs /\ components s js = Some xs.

(** Row [j] belongs to the orientation of body [i]. *)
Definition in_quaternion_block (i : Z) (j : nat) : Prop :=
  13 * i + 3 <= Z.of_nat j < 13 * i + 7.

(** The state a zero-initialising constructor hands to the reset. *)
Definition zero_state (n : Z) : t :=
  Base (Zero (n * COUNT_PER_BODY)) n.

Definition zero_initialising (c : Construction) : Prop :=
  match c with
  | Fixed _ | Dynamic _ => True
  | FromVector _ => False
  end.

(** A construction is valid when the sequence it starts from, if any, is
    made of whole body blocks. *)
Definition valid_construction (c : Construction) : Prop :=
  match c with
  | Fixed _ | Dynamic _ => True
  | FromVector state_vector => rows state_vector mod COUNT_PER_BODY = 0
  end.

(** The orientation block of body [i] holds the identity rotation; it has
    unit norm. *)
Definition holds_identity (s : t) (i : Z) : Prop :=
  get_orientation s i = Some (Eigen.coeffs Eigen.Identity) /\
  get_quaternion s i = Some Eigen.Identity.

Definition unit_norm (s : t) (i : Z) : Prop :=
  Eigen.norm <$> get_orientation s i = Some F64.one.

(** Two accessors whose fields share no component of a body. *)
Definition fields_disjoint (a a' : Accessor) : Prop :=
  accessor_index a + accessor_count a <= accessor_index a' \/
  accessor_index a' + accessor_count a' <= accessor_index a.

(** The get function of an accessor; [operator[]] has none, its value is
    what its view reads. *)
Definition get (a : Accessor) : t -> Z -> option (list double) :=
  match a with
  | APosition => get_position
  | AOrientation => get_orientation
  | ALinearVelocity => get_linear_velocity
  | AAngularVelocity => get_angular_velocity
  | ASingleBody => fun s object_index => single_body s object_index ≫= read s
  end.

(** The vector is made of the body blocks and nothing else. *)
Definition whole_blocks (s : t) : Prop :=
  rows (vector s) = COUNT_PER_BODY * countBodies s.

(** The layout constants, unfolded. *)
Ltac unfold_layout :=
  unfold POSITION_INDEX, POSITION_COUNT, ORIENTATION_INDEX, ORIENTATION_COUNT,
    LINEAR_VELOCITY_INDEX, LINEAR_VELOCITY_COUNT, ANGULAR_VELOCITY_INDEX,
    ANGULAR_VELOCITY_COUNT, COUNT_PER_BODY in *.

End FullRigidBodySystem.

(** ** rigid_body_renderer.hpp *)

(** [double(value)] of a [float]: every binary32 number is a binary64
    number; [binary_round] brings its mantissa to the 53 bits of the wider
    format without changing the number. *)
Definition double_of_float (value : float) : double :=
  match value with
  | S754_finite s m e => binary_round F64.prec F64.emax s m e
  | _ => value
  end.

Module RigidBodyRenderer.

(** [Eigen::Vector3d] and [Eigen::Matrix3d] (by rows). *)
Record Vector : Type := mkVector { vx : double; vy : double; vz : double }.
Record Matrix : Type := mkMatrix { m0 : Vector; m1 : Vector; m2 : Vector }.

Definition Vector_Zero : Vector := mkVector F64.zero F64.zero F64.zero.
Definition Matrix_Zero : Matrix := mkMatrix Vector_Zero Vector_Zero Vector_Zero.

(** The data members of the class. *)
Record t : Type := mk
  { camera_matrix_ : Matrix;
    n_rows_ : Z;
    n_cols_ : Z;
    vertices_ : list (list Vector);
    normals_ : list (list Vector);
    indices_ : list (list (list Z));
    R_ : list Matrix;
    t_ : list Vector;
    coms_ : list Vector;
    com_weights_ : list float }.

(** *** Failure *)

Inductive Error : Type := InvalidArgument.

Inductive result (A : Type) : Type :=
| Returns (a : A)
| Throws (e : Error).
Arguments Returns {A} a.
Arguments Throws {A} e.

Definition bind {A B} (m : result A) (k : A -> result B) : result B :=
  match m with
  | Returns a => k a
  | Throws e => Throws e
  end.

#[export] Instance result_bind : MBind result :=
  fun A B k m => bind m k.

(** *** The pose source

    [Render(state, ...)] is a template over [RigidbodyState]: what it asks
    of the state is [count_parts()], and per part
    [component(i).orientation().rotation_matrix()] and
    [component(i).position()]. *)
Class RigidbodyState (S : Type) : Type :=
  { count_parts : S -> nat;
    component_rotation_matrix : S -> nat -> Matrix;
    component_position : S -> nat -> Vector }.

(** A pose source that is the list of the poses of its parts. *)
Definition PoseList : Type := list (Matrix * Vector).

#[export] Instance PoseList_RigidbodyState : RigidbodyState PoseList :=
  {| count_parts := fun state => length state;
     component_rotation_matrix :=
       fun state i => default Matrix_Zero (fst <$> state !! i);
     component_position :=
       fun state i => default Vector_Zero (snd <$> state !! i) |}.

(** *** Members defined outside the header *)

(** Modelled from the spec: the number of bodies of the renderer, the
    length of the ordered sequence of body meshes ("length = body count,
    fixed for the renderer's lifetime"). *)
Definition body_count (r : t) : nat := length (vertices_ r).

(** Modelled from the spec: [set_poses(rotations, translations)], declared
    in the header and defined in rigid_body_renderer.cpp, which is not
    among the sources.  "Replaces the current pose for every body; both
    sequences must have length equal to body count, else fails with
    InvalidArgument." *)
Definition set_poses (r : t) (rotations : list Matrix)
    (translations : list Vector) : result t :=
  if decide (length rotations = body_count r /\
             length translations = body_count r)
  then Returns
         {| camera_matrix_ := camera_matrix_ r;
            n_rows_ := n_rows_ r;
            n_cols_ := n_cols_ r;
            vertices_ := vertices_ r;
            normals_ := normals_ r;
            indices_ := indices_ r;
            R_ := rotations;
            t_ := translations;
            coms_ := coms_ r;
            com_weights_ := com_weights_ r |}
  else Throws InvalidArgument.

(** Modelled from the spec: [parameters(camera_matrix, n_rows, n_cols)],
    defined in rigid_body_renderer.cpp.  "Replaces cached camera
    intrinsics/resolution used by parameter-less render calls." *)
Definition parameters (r : t) (camera_matrix : Matrix) (n_rows n_cols : Z)
  : t :=
  {| camera_matrix_ := camera_matrix;
     n_rows_ := n_rows;
     n_cols_ := n_cols;
     vertices_ := vertices_ r;
     normals_ := normals_ r;
     indices_ := indices_ r;
     R_ := R_ r;
     t_ := t_ r;
     coms_ := coms_ r;
     com_weights_ := com_weights_ r |}.

(** Modelled from the spec: what the ray-casting kernel of
    rigid_body_renderer.cpp rests on and the spec leaves open.
    [ray_triangle camera_matrix row col R t triangle] is the ray/triangle
    test ("barycentric or equivalent"): [Some d] when the ray that the
    inverse camera matrix gives the pixel meets the triangle, posed by the
    rotation [R] and the translation [t], at a point that lies within the
    triangle, [d] being the depth of that point along the camera's forward
    axis; [None] when the ray is parallel to the triangle, passes outside
    it, or the triangle has no area.  [no_hit_depth] is the non-finite "no
    hit" marker and [sentinel_index] the reserved "no body" index. *)
Class Kernel : Type :=
  { ray_triangle :
      Matrix -> Z -> Z -> Matrix -> Vector -> Vector * Vector * Vector ->
      option float;
    no_hit_depth : float;
    no_hit_depth_not_finite : isfinite no_hit_depth = false;
    sentinel_index : Z;
    sentinel_index_no_body : sentinel_index < 0 }.

(** *** Sequences of calls on one renderer *)

Inductive Call (S : Type) : Type :=
| CallRender (camera_matrix : Matrix) (n_rows n_cols : Z)
| CallRenderDepth (camera_matrix : Matrix) (n_rows n_cols : Z)
| CallRenderState (state : S)
| CallSetPoses (rotations : list Matrix) (translations : list Vector)
| CallParameters (camera_matrix : Matrix) (n_rows n_cols : Z).
Arguments CallRender {S}.
Arguments CallRenderDepth {S}.
Arguments CallRenderState {S}.
Arguments CallSetPoses {S}.
Arguments CallParameters {S}.

Inductive Output : Type :=
| Images (intersect_indices : list Z) (depth : list float)
| DepthImage (depth_image : list float)
| Nothing.

Section Rendering.

Context `{Kernel}.

(** Modelled from the spec: "a hit is valid only if it lies within the
    triangle and at a strictly positive depth along the camera's forward
    axis". *)
Definition valid_hit (camera_matrix : Matrix) (row col : Z) (R : Matrix)
    (t : Vector) (triangle : Vector * Vector * Vector) : option float :=
  match ray_triangle camera_matrix row col R t triangle with
  | Some d => if F32.ltb F32.zero d then Some d else None
  | None => None
  end.

(** Modelled from the spec: a triangle is a triple of indices into the
    vertex sequence of its body. *)
Definition vertex (vertices : list Vector) (index : Z) : option Vector :=
  if 0 <=? index then vertices !! Z.to_nat index else None.

(** Modelled from the spec: the three vertices of a triangle. *)
Definition triangle_of (vertices : list Vector) (index : list Z)
  : option (Vector * Vector * Vector) :=
  match index with
  | [a; b; c] =>
      match vertex vertices a, vertex vertices b, vertex vertices c with
      | Some va, Some vb, Some vc => Some (va, vb, vc)
      | _, _, _ => None
      end
  | _ => None
  end.

(** Modelled from the spec: "across all bodies and triangles, keep the
    minimum valid depth per pixel and record the originating body index";
    of two equal depths the one met first stays. *)
Definition nearest (best : option (float * Z)) (candidate : option float)
    (body : Z) : option (float * Z) :=
  match candidate, best with
  | None, _ => best
  | Some d, None => Some (d, body)
  | Some d, Some (d0, _) => if F32.ltb d d0 then Some (d, body) else best
  end.

(** Modelled from the spec: one triangle of a body against the ray of a
    pixel ("for each triangle of each body"). *)
Definition cast_triangle (camera_matrix : Matrix) (row col : Z)
    (vertices : list Vector) (R : Matrix) (t : Vector) (body : nat)
    (best : option (float * Z)) (index : list Z) : option (float * Z) :=
  nearest best
    (triangle_of vertices index ≫= valid_hit camera_matrix row col R t)
    (Z.of_nat body).

(** Modelled from the spec: the triangles of one body, in their order,
    under the current pose of the body. *)
Definition cast_body (r : RigidBodyRenderer.t) (camera_matrix : Matrix)
    (row col : Z) (best : option (float * Z)) (body : nat)
  : option (float * Z) :=
  match vertices_ r !! body, indices_ r !! body,
        R_ r !! body, t_ r !! body with
  | Some vertices, Some triangles, Some R, Some t =>
      fold_left (cast_triangle camera_matrix row col vertices R t body)
        triangles best
  | _, _, _, _ => best
  end.

(** Modelled from the spec: the bodies of the scene, in their order: the
    nearest valid hit of a pixel, if there is one. *)
Definition cast_pixel (r : RigidBodyRenderer.t) (camera_matrix : Matrix)
    (row col : Z) : option (float * Z) :=
  fold_left (cast_body r camera_matrix row col) (seq 0 (body_count r)) None.

(** Modelled from the spec: "pixels with no valid intersection get a
    non-finite depth and the sentinel index". *)
Definition pixel_index (hit : option (float * Z)) : Z :=
  match hit with
  | Some (_, body) => body
  | None => sentinel_index
  end.

(** Modelled from the spec: the depth written for a pixel. *)
Definition pixel_depth (hit : option (float * Z)) : float :=
  match hit with
  | Some (d, _) => d
  | None => no_hit_depth
  end.

(** Modelled from the spec: the pixels "in row-major order": pixel [k] of
    an image of [n_cols] columns is at row [k / n_cols] and column
    [k mod n_cols]. *)
Definition pixels (n_rows n_cols : Z) : list (Z * Z) :=
  (fun k => (k / n_cols, k mod n_cols)) <$> seqZ 0 (n_rows * n_cols).

(** Modelled from the spec: [Render(camera_matrix, n_rows, n_cols,
    intersect_indices, depth) const], the first overload: the two outputs,
    body index and depth of every pixel. *)
Definition Render (r : RigidBodyRenderer.t) (camera_matrix : Matrix)
    (n_rows n_cols : Z) : list Z * list float :=
  let hits :=
    (fun p => cast_pixel r camera_matrix p.1 p.2) <$> pixels n_rows n_cols
  in (pixel_index <$> hits, pixel_depth <$> hits).

(** Modelled from the spec: [Render(camera_matrix, n_rows, n_cols,
    depth_image) const], the second overload: "same, omitting the index
    output". *)
Definition Render_depth (r : RigidBodyRenderer.t) (camera_matrix : Matrix)
    (n_rows n_cols : Z) : list float :=
  (Render r camera_matrix n_rows n_cols).2.

(** *** The templates of the header *)

(** The loop of [Render(state, depth_vector)], at part [i] with [n]
    iterations left:
    [rotations[i] = state.component(i).orientation().rotation_matrix();
     translations[i] = state.component(i).position()]. *)
Fixpoint extract_poses_from {S} `{RigidbodyState S} (state : S)
    (i n : nat) (rotations : list Matrix) (translations : list Vector)
  : list Matrix * list Vector :=
  match n with
  | O => (rotations, translations)
  | Datatypes.S n' =>
      extract_poses_from state (Datatypes.S i) n'
        (<[i := component_rotation_matrix state i]> rotations)
        (<[i := component_position state i]> translations)
  end.

(** The two vectors are created with [count_parts()] elements, which Eigen
    leaves unset; the loop runs to [rotations.size()] and assigns every one
    of them. *)
Definition extract_poses {S} `{RigidbodyState S} (state : S)
  : list Matrix * list Vector :=
  let rotations := replicate (count_parts state) Matrix_Zero in
  let translations := replicate (count_parts state) Vector_Zero in
  extract_poses_from state 0 (length rotations) rotations translations.

(** [Render(const RigidbodyState& state, std::vector<float>& depth_vector)] *)
Definition Render_state {S} `{RigidbodyState S}
    (r : RigidBodyRenderer.t) (state : S)
  : result (RigidBodyRenderer.t * list float) :=
  let '(rotations, translations) := extract_poses state in
  r' ← set_poses r rotations translations;
  Returns (r', Render_depth r' (camera_matrix_ r') (n_rows_ r') (n_cols_ r')).

(** The loop of the two dense overloads, at pixel [i] with [n] iterations
    left: [depth_image(i) = convert(depth_vector[i])]. *)
Fixpoint fill_depth_image (convert : float -> spec_float)
    (depth_vector : list float) (i n : nat) (depth_image : list spec_float)
  : list spec_float :=
  match n with
  | O => depth_image
  | Datatypes.S n' =>
      match depth_vector !! i with
      | Some value =>
          fill_depth_image convert depth_vector (Datatypes.S i) n'
            (<[i := convert value]> depth_image)
      | None => depth_image
      end
  end.

(** [Render(state, Eigen::VectorXd& depth_image, double bad_value)];
    [resize] leaves the elements unset and the loop assigns every one. *)
Definition Render_VectorXd {S} `{RigidbodyState S}
    (r : RigidBodyRenderer.t) (state : S) (bad_value : double)
  : result (RigidBodyRenderer.t * list double) :=
  '(r', depth_vector) ← Render_state r state;
  let depth_image := replicate (length depth_vector) F64.zero in
  Returns
    (r',
     fill_depth_image
       (fun value =>
          if isfinite value then double_of_float value else bad_value)
       depth_vector 0 (length depth_vector) depth_image).

(** [Render(state, Eigen::VectorXf& depth_image, float bad_value)]; the
    value written for a non-finite depth is
    [std::numeric_limits<float>::infinity()]. *)
Definition Render_VectorXf {S} `{RigidbodyState S}
    (r : RigidBodyRenderer.t) (state : S) (bad_value : float)
  : result (RigidBodyRenderer.t * list float) :=
  '(r', depth_vector) ← Render_state r state;
  let depth_image := replicate (length depth_vector) F32.zero in
  Returns
    (r',
     fill_depth_image
       (fun value => if isfinite value then value else F32.infinity)
       depth_vector 0 (length depth_vector) depth_image).

(** *** Calls

    One call: the renderer after it and what it wrote.  The overloads
    declared [const] hand the renderer back as it was. *)
Definition exec {S} `{RigidbodyState S} (r : RigidBodyRenderer.t)
    (call : Call S) : result (RigidBodyRenderer.t * Output) :=
  match call with
  | CallRender camera_matrix n_rows n_cols =>
      let out := Render r camera_matrix n_rows n_cols in
      Returns (r, Images out.1 out.2)
  | CallRenderDepth camera_matrix n_rows n_cols =>
      Returns (r, DepthImage (Render_depth r camera_matrix n_rows n_cols))
  | CallRenderState state =>
      '(r', depth_vector) ← Render_state r state;
      Returns (r', DepthImage depth_vector)
  | CallSetPoses rotations translations =>
      r' ← set_poses r rotations translations;
      Returns (r', Nothing)
  | CallParameters camera_matrix n_rows n_cols =>
      Returns (parameters r camera_matrix n_rows n_cols, Nothing)
  end.

Fixpoint exec_all {S} `{RigidbodyState S} (r : RigidBodyRenderer.t)
    (calls : list (Call S))
  : result (RigidBodyRenderer.t * list Output) :=
  match calls with
  | [] => Returns (r, [])
  | call :: calls' =>
      '(r1, out) ← exec r call;
      '(r2, outs) ← exec_all r1 calls';
      Returns (r2, out :: outs)
  end.

(** The calls that do not go through [set_poses]. *)
Definition keeps_poses {S} (call : Call S) : Prop :=
  match call with
  | CallRender _ _ _ | CallRenderDepth _ _ _ | CallParameters _ _ _ => True
  | CallRenderState _ | CallSetPoses _ _ => False
  end.

(** No triangle of the scene is hit validly through the pixel: where the
    ray meets a triangle within it, the depth is not above zero. *)
Definition no_valid_hit (r : RigidBodyRenderer.t) (camera_matrix : Matrix)
    (row col : Z) : Prop :=
  forall body vertices triangles R t index triangle d,
    vertices_ r !! body = Some vertices ->
    indices_ r !! body = Some triangles ->
    R_ r !! body = Some R -> t_ r !! body = Some t ->
    index ∈ triangles ->
    triangle_of vertices index = Some triangle ->
    ray_triangle camera_matrix row col R t triangle = Some d ->
    F32.ltb F32.zero d = false.

End Rendering.

(** *** Scenes and a kernel for examples *)

(** Every ray meets every triangle within it, at the one depth [d]; the
    "no hit" marker is positive infinity and the "no body" index is -1. *)
Definition constant_depth_kernel (d : float) : Kernel :=
  {| ray_triangle := fun _ _ _ _ _ _ => Some d;
     no_hit_depth := F32.infinity;
     no_hit_depth_not_finite := eq_refl;
     sentinel_index := -1;
     sentinel_index_no_body := eq_refl |}.

(** A renderer of no body, with a cached resolution of one pixel. *)
Definition empty_scene : t :=
  {| camera_matrix_ := Matrix_Zero;
     n_rows_ := 1;
     n_cols_ := 1;
     vertices_ := [];
     normals_ := [];
     indices_ := [];
     R_ := [];
     t_ := [];
     coms_ := [];
     com_weights_ := [] |}.

(** A renderer of one body, a single triangle, at a resolution of 1 x 2. *)
Definition one_triangle_scene : t :=
  {| camera_matrix_ := Matrix_Zero;
     n_rows_ := 1;
     n_cols_ := 2;
     vertices_ := [[Vector_Zero; Vector_Zero; Vector_Zero]];
     normals_ := [[Vector_Zero]];
     indices_ := [[[0; 1; 2]]];
     R_ := [Matrix_Zero];
     t_ := [Vector_Zero];
     coms_ := [Vector_Zero];
     com_weights_ := [F32.zero] |}.

End RigidBodyRenderer.

(** * Properties of the state vector *)

Import RigidBodySystem FullRigidBodySystem.

(** ** Index arithmetic *)

Lemma wrap_unsigned_range z : 0 <= wrap_unsigned z < 2 ^ 32.
Proof. unfold wrap_unsigned. apply Z.mod_pos_bound. lia. Qed.

Lemma wrap_unsigned_small z : 0 <= z < 2 ^ 32 -> wrap_unsigned z = z.
Proof. unfold wrap_unsigned. intros. by apply Z.mod_small. Qed.

Lemma wrap_unsigned_le z : 0 <= z -> wrap_unsigned z <= z.
Proof. unfold wrap_unsigned. intros. apply Z.mod_le; lia. Qed.

Lemma wrap_size_t_small z : 0 <= z < 2 ^ 64 -> wrap_size_t z = z.
Proof. unfold wrap_size_t. intros. by apply Z.mod_small. Qed.

Lemma Index_of_size_t_small z : z < 2 ^ 63 -> Index_of_size_t z = z.
Proof.
  unfold Index_of_size_t. intros.
  destruct (Z.ltb_spec z (2 ^ 63)); [done | lia].
Qed.

(** For a body index that an [unsigned] body count bounds, the start of a
    field is computed without wrap-around. *)
Lemma block_start_small i off :
  0 <= i < 2 ^ 32 -> 0 <= off < 13 ->
  block_start i off = 13 * i + off.
Proof.
  intros Hi Hoff. unfold block_start, COUNT_PER_BODY.
  rewrite (wrap_size_t_small (i * 13)) by lia.
  rewrite wrap_size_t_small by lia.
  rewrite Index_of_size_t_small by lia. lia.
Qed.

Lemma single_body_start_small i :
  0 <= i < 2 ^ 32 ->
  Index_of_size_t (wrap_size_t (i * COUNT_PER_BODY)) = 13 * i.
Proof.
  intros Hi. unfold COUNT_PER_BODY.
  rewrite wrap_size_t_small by lia.
  rewrite Index_of_size_t_small by lia. lia.
Qed.

(** ** Blocks of a vector *)

Lemma block_in_range_true v start n :
  block_in_range v start n = true <-> 0 <= start /\ start + n <= rows v.
Proof. unfold block_in_range. rewrite andb_true_iff, !Z.leb_le. done. Qed.

Lemma middleRows_Some v start n xs :
  middleRows v start n = Some xs ->
  0 <= start /\ start + n <= rows v /\
  xs = take (Z.to_nat n) (drop (Z.to_nat start) v).
Proof.
  unfold middleRows. destruct (block_in_range v start n) eqn:Hr; [|done].
  apply block_in_range_true in Hr. intros [= <-]. tauto.
Qed.

Lemma middleRows_in_range v start n :
  0 <= start -> start + n <= rows v ->
  middleRows v start n = Some (take (Z.to_nat n) (drop (Z.to_nat start) v)).
Proof.
  intros H0 H1. unfold middleRows.
  assert (block_in_range v start n = true) as -> by by apply block_in_range_true.
  done.
Qed.

(** The [k]-th row of a block is row [start + k] of the vector. *)
Lemma middleRows_lookup v start n xs k :
  middleRows v start n = Some xs -> 0 <= k < n ->
  xs !! Z.to_nat k = v !! Z.to_nat (start + k).
Proof.
  intros (H0 & H1 & ->)%middleRows_Some Hk.
  rewrite lookup_take_lt by lia. rewrite lookup_drop. f_equal. lia.
Qed.

Lemma middleRows_length v start n xs :
  middleRows v start n = Some xs -> 0 <= n -> length xs = Z.to_nat n.
Proof.
  intros (H0 & H1 & ->)%middleRows_Some Hn. unfold rows in H1.
  rewrite length_take, length_drop. lia.
Qed.

(** A block is determined by its rows. *)
Lemma middleRows_ext v start n xs :
  0 <= start -> 0 <= n -> start + n <= rows v ->
  length xs = Z.to_nat n ->
  (forall k, 0 <= k < n -> v !! Z.to_nat (start + k) = xs !! Z.to_nat k) ->
  middleRows v start n = Some xs.
Proof.
  intros H0 Hn H1 Hlen Hrows. rewrite middleRows_in_range by done.
  f_equal. apply list_eq. intros i.
  destruct (decide (i < Z.to_nat n)%nat) as [Hi|Hi].
  - rewrite lookup_take_lt by done. rewrite lookup_drop.
    specialize (Hrows (Z.of_nat i)). rewrite Nat2Z.id in Hrows.
    rewrite <- Hrows by lia. f_equal. lia.
  - rewrite lookup_take_ge by lia. symmetry. apply lookup_ge_None. lia.
Qed.

Lemma assign_block_Some v start vals v' :
  assign_block v start vals = Some v' ->
  0 <= start /\ start + Z.of_nat (length vals) <= rows v /\
  v' = list_inserts (Z.to_nat start) vals v.
Proof.
  unfold assign_block.
  destruct (block_in_range v start _) eqn:Hr; [|done].
  apply block_in_range_true in Hr. intros [= <-]. tauto.
Qed.

Lemma assign_block_in_range v start vals :
  0 <= start -> start + Z.of_nat (length vals) <= rows v ->
  assign_block v start vals = Some (list_inserts (Z.to_nat start) vals v).
Proof.
  intros H0 H1. unfold assign_block.
  assert (block_in_range v start (Z.of_nat (length vals)) = true) as ->
    by by apply block_in_range_true.
  done.
Qed.

Lemma assign_block_rows v start vals v' :
  assign_block v start vals = Some v' -> rows v' = rows v.
Proof.
  intros (_ & _ & ->)%assign_block_Some. unfold rows.
  by rewrite length_inserts.
Qed.

(** Frame: an assignment through a block leaves every row outside the
    block as it was. *)
Lemma assign_block_outside v start vals v' (j : nat) :
  assign_block v start vals = Some v' ->
  ~ (start <= Z.of_nat j < start + Z.of_nat (length vals)) ->
  v' !! j = v !! j.
Proof.
  intros (H0 & H1 & ->)%assign_block_Some Hj.
  destruct (decide (Z.of_nat j < start)).
  - apply list_lookup_inserts_lt. lia.
  - apply list_lookup_inserts_ge. lia.
Qed.

Lemma assign_block_inside v start vals v' k :
  assign_block v start vals = Some v' ->
  0 <= k < Z.of_nat (length vals) ->
  v' !! Z.to_nat (start + k) = vals !! Z.to_nat k.
Proof.
  intros (H0 & H1 & ->)%assign_block_Some Hk. unfold rows in H1.
  rewrite list_lookup_inserts by lia. f_equal. lia.
Qed.

(** ** The quaternion reset *)

(** What the loop does when it runs through: the bodies [k .. k+n-1] it
    visits lie in the vector, their orientation rows hold the identity
    coefficients, and no other row has changed. *)
Lemma reset_quaternions_from_spec n :
  forall k v v',
    0 <= k -> k + Z.of_nat n <= 2 ^ 32 ->
    reset_quaternions_from n k v = Some v' ->
    rows v' = rows v /\
    (forall i, k <= i < k + Z.of_nat n -> 13 * i + 7 <= rows v) /\
    (forall i c, k <= i < k + Z.of_nat n -> 0 <= c < 4 ->
       v' !! Z.to_nat (13 * i + 3 + c)
       = Eigen.coeffs Eigen.Identity !! Z.to_nat c) /\
    (forall j : nat,
       (forall i, k <= i < k + Z.of_nat n -> ~ in_quaternion_block i j) ->
       v' !! j = v !! j).
Proof.
  induction n as [|n IH]; intros k v v' Hk Hn Hrun.
  - simpl in Hrun. injection Hrun as <-.
    repeat split; try done; intros; lia.
  - simpl in Hrun.
    destruct (assign_block v (block_start k 3) _) as [v1|] eqn:Hw; [|done].
    simpl in Hrun.
    rewrite block_start_small in Hw by lia.
    rewrite wrap_size_t_small in Hrun by lia.
    apply IH in Hrun as (Hrows & Hin & Hid & Hframe); [|lia..].
    pose proof (assign_block_rows _ _ _ _ Hw) as Hrows1.
    pose proof (assign_block_Some _ _ _ _ Hw) as (_ & Hfit & _).
    simpl in Hfit.
    split; [congruence|]. split; [|split].
    + intros i Hi. destruct (decide (i = k)) as [->|]; [lia|].
      rewrite <- Hrows1. apply Hin. lia.
    + intros i c Hi Hc. destruct (decide (i = k)) as [->|].
      * rewrite Hframe.
        -- apply (assign_block_inside _ _ _ _ c Hw). simpl. lia.
        -- intros i Hi'. unfold in_quaternion_block. lia.
      * apply Hid; lia.
    + intros j Hj. rewrite Hframe.
      * apply (assign_block_outside _ _ _ _ j Hw). simpl.
        specialize (Hj k). unfold in_quaternion_block in Hj. lia.
      * intros i Hi. apply Hj. lia.
Qed.

(** The loop runs through when the bodies it visits lie in the vector. *)
Lemma reset_quaternions_from_total n :
  forall k v,
    0 <= k -> k + Z.of_nat n <= 2 ^ 32 ->
    13 * (k + Z.of_nat n) <= rows v ->
    is_Some (reset_quaternions_from n k v).
Proof.
  induction n as [|n IH]; intros k v Hk Hn Hfit; [by eexists|].
  cbn [reset_quaternions_from]. rewrite block_start_small by lia.
  destruct (assign_block v (13 * k + 3) _) as [v1|] eqn:Hw.
  - cbn [mbind option_bind]. rewrite wrap_size_t_small by lia.
    apply IH; [lia..|]. rewrite (assign_block_rows _ _ _ _ Hw). lia.
  - rewrite assign_block_in_range in Hw by (simpl; lia). done.
Qed.

Lemma reset_quaternions_Some s s' :
  reset_quaternions s = Some s' ->
  count_bodies_ s' = count_bodies_ s /\
  reset_quaternions_from (Z.to_nat (countBodies s)) 0 (vector s)
  = Some (vector s').
Proof.
  unfold reset_quaternions.
  destruct (reset_quaternions_from _ _ _) as [v|]; [|done].
  simpl. by intros [= <-].
Qed.

Lemma rows_Zero n : 0 <= n -> rows (Zero n) = n.
Proof. intros. unfold rows, Zero. rewrite length_replicate. lia. Qed.

Lemma lookup_Zero n (j : nat) : Z.of_nat j < n -> Zero n !! j = Some F64.zero.
Proof. intros. unfold Zero. apply lookup_replicate_2. lia. Qed.

Lemma new_fixed_Some body_size s :
  new_fixed body_size = Some s ->
  0 <= body_size /\ 13 * body_size <= INT_MAX /\
  reset_quaternions (zero_state body_size) = Some s.
Proof.
  unfold new_fixed, COUNT_PER_BODY.
  destruct (Z.ltb_spec (-1) body_size); simpl; [|done].
  destruct (Z.leb_spec (body_size * 13) INT_MAX); [|done].
  intros Hs. repeat split; [lia..|done].
Qed.

(** A dynamic construction that returns has not wrapped the state size. *)
Lemma new_dynamic_Some count_bodies s :
  new_dynamic count_bodies = Some s ->
  13 * wrap_unsigned count_bodies < 2 ^ 32 /\
  reset_quaternions (zero_state (wrap_unsigned count_bodies)) = Some s.
Proof.
  unfold new_dynamic. cbv zeta. intros Hs.
  pose proof (wrap_unsigned_range count_bodies) as Hc.
  set (c := wrap_unsigned count_bodies) in *.
  assert (13 * c < 2 ^ 32) as Hfit.
  { destruct (decide (c = 0)) as [->|Hpos]; [done|].
    apply reset_quaternions_Some in Hs as [_ Hrun]. simpl in Hrun.
    assert (countBodies (Base (Zero (wrap_unsigned (c * COUNT_PER_BODY))) c) = c)
      as Hcount by (apply wrap_unsigned_small; lia).
    rewrite Hcount in Hrun.
    apply reset_quaternions_from_spec in Hrun as (_ & Hin & _); [|lia..].
    specialize (Hin (c - 1)). rewrite Z2Nat.id in Hin by lia.
    rewrite rows_Zero in Hin by apply wrap_unsigned_range.
    unfold wrap_unsigned, COUNT_PER_BODY in Hin.
    pose proof (Z.div_mod (c * 13) (2 ^ 32)) as Hdm.
    pose proof (Z.mod_pos_bound (c * 13) (2 ^ 32)) as Hmb.
    change (2 ^ 32) with 4294967296 in *. lia. }
  split; [done|].
  unfold zero_state. rewrite <- Hs. unfold COUNT_PER_BODY in *.
  by rewrite (wrap_unsigned_small (c * 13)) by lia.
Qed.

(** After the reset of a zero state of [n] bodies: the shape of the state,
    the identity in every orientation block, zero everywhere else. *)
Lemma reset_zero_state n s :
  0 <= n -> 13 * n < 2 ^ 32 ->
  reset_quaternions (zero_state n) = Some s ->
  countBodies s = n /\ rows (vector s) = 13 * n /\
  (forall i c, 0 <= i < n -> 0 <= c < 4 ->
     vector s !! Z.to_nat (13 * i + 3 + c)
     = Eigen.coeffs Eigen.Identity !! Z.to_nat c) /\
  (forall j : nat, Z.of_nat j < 13 * n ->
     ~ (3 <= Z.of_nat j mod 13 <= 6) ->
     vector s !! j = Some F64.zero).
Proof.
  intros Hn Hfit (Hcount & Hrun)%reset_quaternions_Some.
  assert (countBodies (zero_state n) = n) as Hc
    by (apply wrap_unsigned_small; simpl; lia).
  rewrite Hc in Hrun. simpl in Hrun, Hcount.
  apply reset_quaternions_from_spec in Hrun as (Hrows & _ & Hid & Hframe);
    [|lia..].
  rewrite Z2Nat.id in * by lia.
  unfold COUNT_PER_BODY in *. rewrite rows_Zero in Hrows by lia.
  split; [|split; [lia|split]].
  - unfold countBodies, RigidBodySystem.countBodies. rewrite Hcount.
    apply wrap_unsigned_small. lia.
  - intros i c Hi Hc'. apply Hid; lia.
  - intros j Hj Hmod. rewrite Hframe.
    + apply lookup_Zero. lia.
    + intros i Hi. unfold in_quaternion_block. intros Hblock.
      apply Hmod.
      replace (Z.of_nat j) with ((Z.of_nat j - 13 * i) + i * 13) by lia.
      rewrite Z.mod_add by lia. rewrite Z.mod_small; lia.
Qed.

Lemma reset_zero_state_total n :
  0 <= n -> 13 * n < 2 ^ 32 -> is_Some (reset_quaternions (zero_state n)).
Proof.
  intros Hn Hfit. unfold reset_quaternions.
  assert (countBodies (zero_state n) = n) as ->
    by (apply wrap_unsigned_small; simpl; lia).
  destruct (reset_quaternions_from_total (Z.to_nat n) 0 (vector (zero_state n)))
    as [v ->]; [lia | lia | | by eexists].
  simpl. unfold COUNT_PER_BODY. rewrite rows_Zero; lia.
Qed.

(** ** Views *)

Lemma countBodies_range (s : FullRigidBodySystem.t) :
  0 <= countBodies s < 2 ^ 32.
Proof. apply wrap_unsigned_range. Qed.

Lemma well_formed_body (s : FullRigidBodySystem.t) i :
  well_formed s -> 0 <= i < countBodies s -> 13 * i + 13 <= rows (vector s).
Proof. unfold well_formed, COUNT_PER_BODY. lia. Qed.

Lemma view_small a s i :
  0 <= i < 2 ^ 32 ->
  view a s i = VectorBlock_of s (13 * i + accessor_index a) (accessor_count a).
Proof.
  intros Hi. destruct a; cbn [view accessor_index accessor_count].
  - unfold position, POSITION_INDEX. by rewrite block_start_small by lia.
  - unfold orientation, ORIENTATION_INDEX. by rewrite block_start_small by lia.
  - unfold linear_velocity, LINEAR_VELOCITY_INDEX.
    by rewrite block_start_small by lia.
  - unfold angular_velocity, ANGULAR_VELOCITY_INDEX.
    by rewrite block_start_small by lia.
  - unfold single_body. rewrite single_body_start_small by lia.
    f_equal. lia.
Qed.

Lemma VectorBlock_of_Some s start n b :
  VectorBlock_of s start n = Some b ->
  b = mkVectorBlock start n /\ 0 <= start /\ start + n <= rows (vector s).
Proof.
  unfold VectorBlock_of.
  destruct (block_in_range _ _ _) eqn:Hr; [|done].
  apply block_in_range_true in Hr. intros [= <-]. tauto.
Qed.

Lemma VectorBlock_of_in_range s start n :
  0 <= start -> start + n <= rows (vector s) ->
  VectorBlock_of s start n = Some (mkVectorBlock start n).
Proof.
  intros H0 H1. unfold VectorBlock_of.
  assert (block_in_range (vector s) start n = true) as ->
    by by apply block_in_range_true.
  done.
Qed.

Lemma accessor_in_body a :
  0 <= accessor_index a /\ 0 < accessor_count a /\
  accessor_index a + accessor_count a <= 13.
Proof. destruct a; repeat split; by vm_compute. Qed.

(** A block read off the vector is the list of the scalars at its flat
    indices. *)
Lemma middleRows_components s start n :
  0 <= start -> 0 <= n -> start + n <= rows (vector s) ->
  exists xs, middleRows (vector s) start n = Some xs /\
             components s (seqZ start n) = Some xs.
Proof.
  intros H0 Hn H1. eexists. split; [by apply middleRows_in_range|].
  apply mapM_Some, Forall2_same_length_lookup. unfold rows in H1. split.
  - rewrite length_seqZ, length_take, length_drop. lia.
  - intros k j x [-> Hk]%lookup_seqZ Hx.
    rewrite lookup_take_lt, lookup_drop in Hx by lia.
    unfold flat. rewrite <- Hx. f_equal. lia.
Qed.

Lemma seqZ_3 m : seqZ m 3 = [m; m + 1; m + 2].
Proof. unfold seqZ. simpl. repeat (f_equal; try lia). Qed.

Lemma seqZ_4 m : seqZ m 4 = [m; m + 1; m + 2; m + 3].
Proof. unfold seqZ. simpl. repeat (f_equal; try lia). Qed.

Lemma accessor_covers a s i :
  well_formed s -> 0 <= i < countBodies s ->
  covers s (view a s i)
    (seqZ (13 * i + accessor_index a) (accessor_count a)).
Proof.
  intros Hwf Hi. pose proof (countBodies_range s) as Hc.
  pose proof (well_formed_body s i Hwf Hi) as Hfit.
  pose proof (accessor_in_body a) as (Ha0 & Ha1 & Ha2).
  rewrite view_small by lia.
  destruct (middleRows_components s (13 * i + accessor_index a)
              (accessor_count a)) as (xs & Hread & Hcomp); [lia..|].
  exists (mkVectorBlock (13 * i + accessor_index a) (accessor_count a)), xs.
  split; [apply VectorBlock_of_in_range; lia|]. by repeat split.
Qed.

Lemma getter_components s i off n :
  well_formed s -> 0 <= i < countBodies s ->
  0 <= off -> 0 < n -> off + n <= 13 ->
  exists xs, middleRows (vector s) (block_start i off) n = Some xs /\
             components s (seqZ (13 * i + off) n) = Some xs.
Proof.
  intros Hwf Hi Hoff Hn Hfit. pose proof (countBodies_range s) as Hc.
  pose proof (well_formed_body s i Hwf Hi).
  rewrite block_start_small by lia.
  apply middleRows_components; lia.
Qed.

(** The states the constructors return are well formed. *)
Lemma construct_zero_initialising c s :
  zero_initialising c -> construct c = Some s ->
  exists n, 0 <= n /\ 13 * n < 2 ^ 32 /\
            reset_quaternions (zero_state n) = Some s.
Proof.
  destruct c as [n|n|v]; simpl; [| |done]; intros _.
  - intros (H0 & H1 & Hs)%new_fixed_Some. exists n.
    unfold INT_MAX in H1. repeat split; [lia..|done].
  - intros (H1 & Hs)%new_dynamic_Some. exists (wrap_unsigned n).
    pose proof (wrap_unsigned_range n). repeat split; [lia..|done].
Qed.

Lemma construct_well_formed c s : construct c = Some s -> well_formed s.
Proof.
  destruct c as [n|n|v].
  - intros Hs.
    destruct (construct_zero_initialising (Fixed n) s I Hs) as (m & ? & ? & Hr).
    apply reset_zero_state in Hr as (Hc & Hrows & _); [|lia..].
    unfold well_formed, COUNT_PER_BODY. lia.
  - intros Hs.
    destruct (construct_zero_initialising (Dynamic n) s I Hs) as (m & ? & ? & Hr).
    apply reset_zero_state in Hr as (Hc & Hrows & _); [|lia..].
    unfold well_formed, COUNT_PER_BODY. lia.
  - simpl. unfold new_from_vector. intros [= <-].
    unfold well_formed, countBodies, RigidBodySystem.countBodies,
      COUNT_PER_BODY. simpl.
    assert (0 <= rows v) by (unfold rows; lia).
    rewrite Z.quot_div_nonneg by lia.
    pose proof (wrap_unsigned_le (rows v `div` 13)) as Hle.
    pose proof (Z.mul_div_le (rows v) 13).
    assert (0 <= rows v `div` 13) by (apply Z.div_pos; lia). lia.
Qed.

(** ** The layout of the accessors *)

Lemma indices_3 m a b c :
  a = m -> b = m + 1 -> c = m + 2 -> [a; b; c] = seqZ m 3.
Proof. intros -> -> ->. by rewrite seqZ_3. Qed.

Lemma indices_4 m a b c d :
  a = m -> b = m + 1 -> c = m + 2 -> d = m + 3 -> [a; b; c; d] = seqZ m 4.
Proof. intros -> -> -> ->. by rewrite seqZ_4. Qed.

(** C4. For a body index [i] of a well-formed state, each writable accessor
    yields a view that covers the canonical flat indices -- position
    13i..13i+2, orientation 13i+3..13i+6, linear velocity 13i+7..13i+9,
    angular velocity 13i+10..13i+12, [operator[]] the thirteen indices from
    13i on -- and each get function returns the scalars at the same flat
    indices as the view of its field. *)
Theorem C4_accessor_layout (s : FullRigidBodySystem.t) (i : Z) :
  well_formed s -> 0 <= i < countBodies s ->
  covers s (position s i) [13 * i; 13 * i + 1; 13 * i + 2] /\
  covers s (orientation s i)
    [13 * i + 3; 13 * i + 4; 13 * i + 5; 13 * i + 6] /\
  covers s (linear_velocity s i) [13 * i + 7; 13 * i + 8; 13 * i + 9] /\
  covers s (angular_velocity s i) [13 * i + 10; 13 * i + 11; 13 * i + 12] /\
  covers s (single_body s i) (seqZ (13 * i) 13) /\
  get_position s i = components s [13 * i; 13 * i + 1; 13 * i + 2] /\
  get_orientation s i
  = components s [13 * i + 3; 13 * i + 4; 13 * i + 5; 13 * i + 6] /\
  get_linear_velocity s i
  = components s [13 * i + 7; 13 * i + 8; 13 * i + 9] /\
  get_angular_velocity s i
  = components s [13 * i + 10; 13 * i + 11; 13 * i + 12] /\
  is_Some (get_position s i) /\ is_Some (get_orientation s i) /\
  is_Some (get_linear_velocity s i) /\ is_Some (get_angular_velocity s i).
Proof.
  intros Hwf Hi.
  pose proof (fun a => accessor_covers a s i Hwf Hi) as Hcov.
  destruct (getter_components s i 0 3 Hwf Hi) as (xp & Hgp & Hcp); [lia..|].
  destruct (getter_components s i 3 4 Hwf Hi) as (xo & Hgo & Hco); [lia..|].
  destruct (getter_components s i 7 3 Hwf Hi) as (xl & Hgl & Hcl); [lia..|].
  destruct (getter_components s i 10 3 Hwf Hi) as (xa & Hga & Hca); [lia..|].
  rewrite (indices_3 (13 * i + 0) (13 * i) (13 * i + 1) (13 * i + 2)),
    (indices_4 (13 * i + 3) (13 * i + 3) (13 * i + 4) (13 * i + 5)
       (13 * i + 6)),
    (indices_3 (13 * i + 7) (13 * i + 7) (13 * i + 8) (13 * i + 9)),
    (indices_3 (13 * i + 10) (13 * i + 10) (13 * i + 11) (13 * i + 12))
    by lia.
  replace (seqZ (13 * i) 13) with (seqZ (13 * i + 0) 13) by (f_equal; lia).
  unfold get_position, get_orientation, get_linear_velocity,
    get_angular_velocity. unfold_layout.
  rewrite Hgp, Hgo, Hgl, Hga, Hcp, Hco, Hcl, Hca.
  split; [exact (Hcov APosition)|]. split; [exact (Hcov AOrientation)|].
  split; [exact (Hcov ALinearVelocity)|].
  split; [exact (Hcov AAngularVelocity)|]. split; [exact (Hcov ASingleBody)|].
  repeat split; by eexists.
Qed.

(** C4 at the second body of a state of two bodies. *)
Lemma C4_accessor_layout_witness :
  exists s, construct (Dynamic 2) = Some s /\
    covers s (orientation s 1) [16; 17; 18; 19] /\
    get_linear_velocity s 1 = components s [20; 21; 22].
Proof.
  eexists. split; [vm_compute; reflexivity|].
  match goal with |- covers ?s _ _ /\ _ =>
    destruct (C4_accessor_layout s 1) as (_ & Ho & _ & _ & _ & _ & _ & Hl & _)
  end; [vm_compute; congruence | vm_compute; split; congruence |].
  split; [exact Ho | exact Hl].
Defined.

(** ** Sizes *)

Lemma zero_initialising_sizes c s :
  zero_initialising c -> construct c = Some s ->
  countBodies s * COUNT_PER_BODY = rows (vector s) /\
  rows (vector s) < 2 ^ 32.
Proof.
  intros Hzero Hs.
  destruct (construct_zero_initialising c s Hzero Hs) as (n & ? & ? & Hr).
  apply reset_zero_state in Hr as (Hc & Hrows & _); [|lia..].
  rewrite Hc, Hrows. unfold COUNT_PER_BODY. lia.
Qed.

(** C5. For every valid construction that returns a state, the body count
    times 13 is the state size that the size query reports: as the program
    computes the product, in [unsigned] arithmetic, for every state, and
    as integers for every state of fewer than 2^32 scalars. *)
Theorem C5_body_count_times_13 (c : Construction) (s : FullRigidBodySystem.t) :
  valid_construction c -> construct c = Some s ->
  wrap_unsigned (countBodies s * COUNT_PER_BODY) = countState s /\
  (rows (vector s) < 2 ^ 32 ->
   countBodies s * COUNT_PER_BODY = countState s).
Proof.
  intros Hvalid Hs. unfold countState, RigidBodySystem.countState.
  assert (0 <= rows (vector s)) as Hrows by (unfold rows; lia).
  destruct c as [n|n|v].
  - destruct (zero_initialising_sizes (Fixed n) s I Hs) as [-> Hfit].
    split; [done|]. intros _. rewrite wrap_unsigned_small; lia.
  - destruct (zero_initialising_sizes (Dynamic n) s I Hs) as [-> Hfit].
    split; [done|]. intros _. rewrite wrap_unsigned_small; lia.
  - simpl in Hvalid, Hs. unfold new_from_vector in Hs. injection Hs as <-.
    unfold countBodies, RigidBodySystem.countBodies, COUNT_PER_BODY in *.
    simpl in *. rewrite Z.quot_div_nonneg by lia.
    pose proof (Z.div_mod (rows v) 13) as Hdm.
    assert (rows v `div` 13 * 13 = rows v) as Hwhole by lia.
    split.
    + unfold wrap_unsigned. by rewrite Z.mul_mod_idemp_l, Hwhole by lia.
    + intros Hfit. rewrite !wrap_unsigned_small; lia.
Qed.

(** C5 at the state made from a sequence of 26 zeros. *)
Lemma C5_body_count_times_13_witness :
  exists s, construct (FromVector (Zero 26)) = Some s /\
            countBodies s * COUNT_PER_BODY = countState s.
Proof.
  eexists. split; [reflexivity|].
  apply (C5_body_count_times_13 (FromVector (Zero 26))); reflexivity.
Defined.

(** The constructors return: the fixed one for every body count the type
    admits, the dynamic one while the state size fits an [unsigned], the one
    from a sequence always. *)
Lemma construct_total c :
  match c with
  | Fixed n => 0 <= n /\ 13 * n <= INT_MAX
  | Dynamic n => 13 * wrap_unsigned n < 2 ^ 32
  | FromVector _ => True
  end ->
  is_Some (construct c).
Proof.
  destruct c as [n|n|v]; simpl.
  - intros [H0 H1]. unfold new_fixed, COUNT_PER_BODY.
    destruct (Z.ltb_spec (-1) n); [|lia]. simpl.
    destruct (Z.leb_spec (n * 13) INT_MAX); [|lia].
    apply reset_zero_state_total; unfold INT_MAX in *; lia.
  - intros H1. unfold new_dynamic. cbv zeta.
    pose proof (wrap_unsigned_range n).
    unfold COUNT_PER_BODY. rewrite (wrap_unsigned_small (_ * 13)) by lia.
    apply reset_zero_state_total; lia.
  - intros _. by eexists.
Qed.

(** ** Orientation after construction *)

Lemma zero_state_orientation n s i :
  0 <= n -> 13 * n < 2 ^ 32 ->
  reset_quaternions (zero_state n) = Some s ->
  0 <= i < countBodies s ->
  get_orientation s i = Some (Eigen.coeffs Eigen.Identity).
Proof.
  intros Hn Hfit Hr Hi.
  apply reset_zero_state in Hr as (Hc & Hrows & Hid & _); [|lia..].
  unfold get_orientation, ORIENTATION_INDEX, ORIENTATION_COUNT.
  rewrite block_start_small by lia.
  apply middleRows_ext; [lia..|done|].
  intros k Hk. apply Hid; lia.
Qed.

Lemma get_quaternion_of_orientation s i x y z w :
  get_orientation s i = Some [x; y; z; w] ->
  get_quaternion s i = Some (Eigen.mkQuaternion x y z w).
Proof. unfold get_quaternion. by intros ->. Qed.

(** C1 (as amended). After the constructor for a fixed body count and after
    the one for a dynamic body count, every orientation block holds the
    identity rotation and has unit norm.  The constructor from a flat value
    sequence stores the sequence as it is: its orientation blocks hold what
    the sequence holds there. *)
Theorem C1_orientation_after_construction
    (c : Construction) (s : FullRigidBodySystem.t) :
  construct c = Some s ->
  (zero_initialising c ->
   forall i, 0 <= i < countBodies s -> holds_identity s i /\ unit_norm s i) /\
  (forall state_vector, c = FromVector state_vector ->
     vector s = state_vector /\
     forall i, get_orientation s i
               = middleRows state_vector (block_start i ORIENTATION_INDEX)
                   ORIENTATION_COUNT).
Proof.
  intros Hs. split.
  - intros Hzero i Hi.
    destruct (construct_zero_initialising c s Hzero Hs) as (n & Hn & Hfit & Hr).
    pose proof (zero_state_orientation n s i Hn Hfit Hr Hi) as Ho.
    unfold holds_identity, unit_norm. rewrite Ho.
    repeat split. by apply get_quaternion_of_orientation.
  - intros v ->. simpl in Hs. unfold new_from_vector in Hs.
    injection Hs as <-. done.
Qed.

(** C1 (as amended) at the second body of a dynamic state of two bodies. *)
Lemma C1_orientation_after_construction_witness :
  exists s, construct (Dynamic 2) = Some s /\
            holds_identity s 1 /\ unit_norm s 1.
Proof.
  eexists. split; [vm_compute; reflexivity|].
  match goal with |- holds_identity ?s _ /\ _ =>
    apply (C1_orientation_after_construction (Dynamic 2) s)
  end; [vm_compute; reflexivity | exact I | vm_compute; split; congruence].
Defined.

(** C1 as stated fails: from the sequence of thirteen ones the constructor
    makes a state of one body whose orientation block is (1, 1, 1, 1), of
    norm 2. *)
Lemma C1_from_vector_keeps_input :
  exists s,
    construct (FromVector (replicate 13 F64.one)) = Some s /\
    0 <= 0 < countBodies s /\
    get_orientation s 0 = Some [F64.one; F64.one; F64.one; F64.one] /\
    get_orientation s 0 <> Some (Eigen.coeffs Eigen.Identity) /\
    Eigen.norm <$> get_orientation s 0 <> Some F64.one.
Proof.
  eexists. split; [reflexivity|].
  split; [vm_compute; split; congruence|].
  split; [reflexivity|]. split; vm_compute; congruence.
Qed.

(** ** Construction from a sequence *)

(** C2 (as amended). Construction from a flat value sequence returns for
    every sequence, whatever its length: the state holds the sequence as it
    is and its body count is the length divided by 13, rounded down (and
    reduced to the range of [unsigned]). *)
Theorem C2_from_vector_always_returns (state_vector : StateVector) :
  exists s,
    construct (FromVector state_vector) = Some s /\
    vector s = state_vector /\
    countBodies s = (rows state_vector / 13) mod 2 ^ 32.
Proof.
  eexists. split; [reflexivity|]. split; [reflexivity|].
  unfold countBodies, RigidBodySystem.countBodies, COUNT_PER_BODY. simpl.
  rewrite Z.quot_div_nonneg; [done | unfold rows; lia | lia].
Qed.

(** C2 as stated fails: fourteen is no multiple of 13, and from a sequence
    of fourteen zeros the constructor returns a state of one body. *)
Lemma C2_length_14_is_accepted :
  exists s,
    rows (Zero 14) mod 13 = 1 /\
    construct (FromVector (Zero 14)) = Some s /\
    countBodies s = 1 /\ countState s = 14.
Proof. eexists. repeat split. Qed.

(** ** The coefficient order of the orientation *)

(** C10. The orientation block is read in the order x, y, z, w:
    [get_quaternion] of a body is the quaternion whose x, y, z and w are the
    flat components 13i+3, 13i+4, 13i+5 and 13i+6; and in a state that a
    zero-initialising constructor returned these four are 0, 0, 0, 1. *)
Theorem C10_scalar_last_order (s : FullRigidBodySystem.t) (i : Z) :
  well_formed s -> 0 <= i < countBodies s ->
  exists x y z w,
    flat s (13 * i + 3) = Some x /\ flat s (13 * i + 4) = Some y /\
    flat s (13 * i + 5) = Some z /\ flat s (13 * i + 6) = Some w /\
    get_orientation s i = Some [x; y; z; w] /\
    get_quaternion s i
    = Some {| Eigen.qx := x; Eigen.qy := y; Eigen.qz := z; Eigen.qw := w |} /\
    (forall c, zero_initialising c -> construct c = Some s ->
       [x; y; z; w] = [F64.zero; F64.zero; F64.zero; F64.one] /\
       get_quaternion s i = Some Eigen.Identity).
Proof.
  intros Hwf Hi.
  destruct (getter_components s i 3 4 Hwf Hi) as (xs & Hget & Hcomp); [lia..|].
  rewrite seqZ_4 in Hcomp.
  replace (13 * i + 3 + 1) with (13 * i + 4) in Hcomp by lia.
  replace (13 * i + 3 + 2) with (13 * i + 5) in Hcomp by lia.
  replace (13 * i + 3 + 3) with (13 * i + 6) in Hcomp by lia.
  apply mapM_Some in Hcomp.
  apply Forall2_cons_inv_l in Hcomp as (x & xs1 & Hx & Hcomp & ->).
  apply Forall2_cons_inv_l in Hcomp as (y & xs2 & Hy & Hcomp & ->).
  apply Forall2_cons_inv_l in Hcomp as (z & xs3 & Hz & Hcomp & ->).
  apply Forall2_cons_inv_l in Hcomp as (w & xs4 & Hw & Hcomp & ->).
  apply Forall2_nil_inv_l in Hcomp as ->.
  assert (get_orientation s i = Some [x; y; z; w]) as Ho by exact Hget.
  exists x, y, z, w.
  split; [done|]. split; [done|]. split; [done|]. split; [done|].
  split; [done|]. split; [by apply get_quaternion_of_orientation|].
  intros c Hzero Hs.
  destruct (construct_zero_initialising c s Hzero Hs) as (n & Hn & Hfit & Hr).
  pose proof (zero_state_orientation n s i Hn Hfit Hr Hi) as Hid.
  split; [|by apply get_quaternion_of_orientation].
  rewrite Ho in Hid. by injection Hid as -> -> -> ->.
Qed.

(** C10 at the second body of a fixed-size state of two bodies. *)
Lemma C10_scalar_last_order_witness :
  exists s,
    construct (Fixed 2) = Some s /\
    exists x y z w,
      flat s 16 = Some x /\ flat s 17 = Some y /\
      flat s 18 = Some z /\ flat s 19 = Some w /\
      get_quaternion s 1
      = Some {| Eigen.qx := x; Eigen.qy := y; Eigen.qz := z; Eigen.qw := w |}.
Proof.
  eexists. split; [vm_compute; reflexivity|].
  match goal with |- exists x y z w, flat ?s _ = _ /\ _ =>
    destruct (C10_scalar_last_order s 1)
      as (x & y & z & w & Hx & Hy & Hz & Hw & _ & Hq & _)
  end; [vm_compute; congruence | vm_compute; split; congruence |].
  exists x, y, z, w. by repeat split.
Defined.

(** ** Frame properties *)

Lemma middleRows_frame (v v' : StateVector) start n :
  rows v' = rows v ->
  (forall j : nat, start <= Z.of_nat j < start + n -> v' !! j = v !! j) ->
  middleRows v' start n = middleRows v start n.
Proof.
  intros Hrows Hsame. unfold middleRows, block_in_range. rewrite Hrows.
  destruct (Z.leb_spec 0 start); simpl; [|done].
  destruct (Z.leb_spec (start + n) (rows v)); [|done].
  f_equal. apply list_eq. intros k. rewrite !lookup_take.
  case_decide; [|done]. rewrite !lookup_drop. apply Hsame. lia.
Qed.

Lemma write_Some s b vals s' :
  write s b vals = Some s' ->
  Z.of_nat (length vals) = blockRows b /\
  count_bodies_ s' = count_bodies_ s /\
  assign_block (vector s) (startRow b) vals = Some (vector s').
Proof.
  unfold write. case_decide as Hlen; [|done].
  destruct (assign_block _ _ _) as [v|]; [|done]. simpl.
  by intros [= <-].
Qed.

Lemma quaternion_block_mod i (j : nat) :
  in_quaternion_block i j -> 3 <= Z.of_nat j mod 13 <= 6.
Proof.
  unfold in_quaternion_block. intros Hj.
  replace (Z.of_nat j) with ((Z.of_nat j - 13 * i) + i * 13) by lia.
  rewrite Z.mod_add by lia. rewrite Z.mod_small; lia.
Qed.

(** C9. An assignment through the view of an accessor at body [i] changes
    only the flat components the view spans, which lie in the block of body
    [i] at the offset of the accessor: every other component keeps its value,
    and so does what the views of the other bodies and of the disjoint fields
    of body [i] read.  The quaternion reset changes only components 13i+3 to
    13i+6 of the bodies, so that after a zero-initialising constructor all
    positions and velocities are zero. *)
Theorem C9_frame :
  (forall a (s : FullRigidBodySystem.t) i b vals s',
     0 <= i < countBodies s ->
     view a s i = Some b -> write s b vals = Some s' ->
     block_indices b = seqZ (13 * i + accessor_index a) (accessor_count a) /\
     13 * i <= 13 * i + accessor_index a /\
     13 * i + accessor_index a + accessor_count a <= 13 * i + 13 /\
     countBodies s' = countBodies s /\ countState s' = countState s /\
     read s' b = Some vals /\
     (forall j, 0 <= j -> j ∉ block_indices b -> flat s' j = flat s j) /\
     (forall a' i' b',
        0 <= i' < countBodies s -> view a' s i' = Some b' ->
        i' <> i \/ fields_disjoint a a' ->
        view a' s' i' = Some b' /\ read s' b' = read s b')) /\
  (forall (s s' : FullRigidBodySystem.t),
     reset_quaternions s = Some s' ->
     countBodies s' = countBodies s /\ countState s' = countState s /\
     forall j, 0 <= j -> ~ (3 <= j mod 13 <= 6) -> flat s' j = flat s j) /\
  (forall c (s : FullRigidBodySystem.t),
     zero_initialising c -> construct c = Some s ->
     forall j, 0 <= j < rows (vector s) -> ~ (3 <= j mod 13 <= 6) ->
               flat s j = Some F64.zero).
Proof.
  split; [|split].
  - intros a s i b vals s' Hi Hview Hwrite.
    pose proof (countBodies_range s) as Hc.
    pose proof (accessor_in_body a) as (Ha0 & Ha1 & Ha2).
    rewrite view_small in Hview by lia.
    apply VectorBlock_of_Some in Hview as (-> & Hstart & Hfit).
    apply write_Some in Hwrite as (Hlen & Hcount & Hassign).
    cbn [startRow blockRows] in *.
    pose proof (assign_block_rows _ _ _ _ Hassign) as Hrows.
    split; [done|]. split; [lia|]. split; [lia|].
    split; [by unfold countBodies, RigidBodySystem.countBodies; rewrite Hcount|].
    split; [by unfold countState, RigidBodySystem.countState; rewrite Hrows|].
    split; [|split].
    + unfold read. cbn [startRow blockRows].
      apply middleRows_ext; [lia.. | |].
      * rewrite <- Hlen. lia.
      * intros k Hk. apply (assign_block_inside _ _ _ _ k Hassign). lia.
    + intros j Hj Hout. unfold flat, block_indices in *.
      cbn [startRow blockRows] in Hout. rewrite elem_of_seqZ in Hout.
      apply (assign_block_outside _ _ _ _ _ Hassign). lia.
    + intros a' i' b' Hi' Hview' Hapart.
      pose proof (accessor_in_body a') as (Ha0' & Ha1' & Ha2').
      rewrite view_small in * by lia.
      pose proof (VectorBlock_of_Some _ _ _ _ Hview') as (-> & Hstart' & Hfit').
      split.
      * apply VectorBlock_of_in_range; [lia|]. rewrite Hrows. lia.
      * unfold read. cbn [startRow blockRows].
        apply middleRows_frame; [done|]. intros j Hj.
        apply (assign_block_outside _ _ _ _ _ Hassign).
        unfold fields_disjoint in Hapart. lia.
  - intros s s' (Hcount & Hrun)%reset_quaternions_Some.
    pose proof (countBodies_range s) as Hc.
    apply reset_quaternions_from_spec in Hrun as (Hrows & _ & _ & Hframe);
      [|lia..].
    split; [by unfold countBodies, RigidBodySystem.countBodies; rewrite Hcount|].
    split; [by unfold countState, RigidBodySystem.countState; rewrite Hrows|].
    intros j Hj Hmod. unfold flat. apply Hframe.
    intros i _ Hblock%quaternion_block_mod. rewrite Z2Nat.id in Hblock by lia.
    done.
  - intros c s Hzero Hs j Hj Hmod.
    destruct (construct_zero_initialising c s Hzero Hs) as (n & Hn & Hfit & Hr).
    apply reset_zero_state in Hr as (_ & Hrows & _ & Hzeros); [|lia..].
    unfold flat. apply Hzeros; rewrite Z2Nat.id by lia; [lia | done].
Qed.

(** C9 at an assignment to the linear velocity of the second of two
    bodies: its orientation, its angular velocity and the first body keep
    their values. *)
Lemma C9_frame_witness :
  exists s b s',
    construct (Dynamic 2) = Some s /\ view ALinearVelocity s 1 = Some b /\
    write s b [F64.one; F64.one; F64.one] = Some s' /\
    flat s' 19 = flat s 19 /\ flat s' 23 = flat s 23 /\
    flat s' 7 = Some F64.zero.
Proof.
  destruct C9_frame as (Hwrite & _ & _).
  eexists. eexists. eexists.
  split; [vm_compute; reflexivity|].
  split; [vm_compute; reflexivity|].
  split; [vm_compute; reflexivity|].
  match goal with |- flat ?s' _ = flat ?s _ /\ _ =>
    destruct (Hwrite ALinearVelocity s 1 (mkVectorBlock 20 3)
                [F64.one; F64.one; F64.one] s')
      as (_ & _ & _ & _ & _ & _ & Hframe & _)
  end; [vm_compute; split; congruence | reflexivity | reflexivity |].
  split; [|split; [|reflexivity]]; apply Hframe; try lia;
    unfold block_indices; cbn [startRow blockRows]; rewrite elem_of_seqZ; lia.
Defined.

(** * Properties of the renderer *)

Import RigidBodyRenderer.

(** ** The loops of the templates *)

Lemma extract_poses_from_spec {St} `{RigidbodyState St} (state : St) n :
  forall i (rotations : list Matrix) (translations : list Vector),
    length rotations = (i + n)%nat -> length translations = (i + n)%nat ->
    extract_poses_from state i n rotations translations
    = (take i rotations ++ (component_rotation_matrix state <$> seq i n),
       take i translations ++ (component_position state <$> seq i n)).
Proof.
  induction n as [|n IH]; intros i rotations translations Hr Ht.
  - simpl. rewrite !app_nil_r, !take_ge by lia. done.
  - cbn [extract_poses_from seq fmap list_fmap].
    rewrite IH by (rewrite length_insert; lia).
    rewrite (take_S_r _ i (component_rotation_matrix state i))
      by (apply list_lookup_insert_eq; lia).
    rewrite (take_S_r _ i (component_position state i))
      by (apply list_lookup_insert_eq; lia).
    rewrite !take_insert_ge by lia.
    by rewrite <- !app_assoc.
Qed.

(** The loop hands over one rotation and one translation per part, in the
    order of the parts. *)
Lemma extract_poses_spec {St} `{RigidbodyState St} (state : St) :
  extract_poses state
  = (component_rotation_matrix state <$> seq 0 (count_parts state),
     component_position state <$> seq 0 (count_parts state)).
Proof.
  unfold extract_poses. rewrite length_replicate.
  rewrite extract_poses_from_spec by (rewrite length_replicate; lia).
  by rewrite !take_0.
Qed.

Lemma fill_depth_image_spec convert depth_vector n :
  forall i depth_image,
    length depth_vector = (i + n)%nat -> length depth_image = (i + n)%nat ->
    fill_depth_image convert depth_vector i n depth_image
    = take i depth_image ++ (convert <$> drop i depth_vector).
Proof.
  induction n as [|n IH]; intros i depth_image Hv Hi.
  - simpl. rewrite drop_ge, take_ge by lia. by rewrite app_nil_r.
  - cbn [fill_depth_image].
    destruct (lookup_lt_is_Some_2 depth_vector i) as [value Hvalue]; [lia|].
    rewrite Hvalue, IH by (rewrite ?length_insert; lia).
    rewrite (take_S_r _ i (convert value))
      by (apply list_lookup_insert_eq; lia).
    rewrite take_insert_ge by lia.
    rewrite (drop_S depth_vector value i Hvalue).
    by rewrite <- app_assoc.
Qed.

(** The loop converts every pixel, in place. *)
Lemma fill_depth_image_all convert depth_vector filler :
  fill_depth_image convert depth_vector 0 (length depth_vector)
    (replicate (length depth_vector) filler)
  = convert <$> depth_vector.
Proof.
  rewrite fill_depth_image_spec by (rewrite ?length_replicate; lia).
  by rewrite take_0, drop_0.
Qed.

(** ** [set_poses] *)

Lemma set_poses_Returns r rotations translations r' :
  set_poses r rotations translations = Returns r' ->
  R_ r' = rotations /\ t_ r' = translations /\
  camera_matrix_ r' = camera_matrix_ r /\
  n_rows_ r' = n_rows_ r /\ n_cols_ r' = n_cols_ r /\
  vertices_ r' = vertices_ r /\ indices_ r' = indices_ r.
Proof. unfold set_poses. case_decide; [|done]. by intros [= <-]. Qed.

Lemma set_poses_total r rotations translations :
  length rotations = body_count r -> length translations = body_count r ->
  exists r', set_poses r rotations translations = Returns r'.
Proof.
  intros Hr Ht. unfold set_poses.
  case_decide as Hd; [by eexists | tauto].
Qed.

(** ** Calls that keep the poses *)

Section Calls.

Context `{Kernel} {St : Type} `{RigidbodyState St}.

Lemma exec_keeps_poses (r r' : RigidBodyRenderer.t) (call : Call St) out :
  keeps_poses call -> exec r call = Returns (r', out) ->
  R_ r' = R_ r /\ t_ r' = t_ r /\
  vertices_ r' = vertices_ r /\ indices_ r' = indices_ r.
Proof. destruct call; simpl; try done; by intros _ [= <- _]. Qed.

Lemma exec_keeps_poses_total (r : RigidBodyRenderer.t) (call : Call St) :
  keeps_poses call -> exists r' out, exec r call = Returns (r', out).
Proof. destruct call; simpl; try done; by eexists _, _. Qed.

Lemma exec_all_keeps_poses (calls : list (Call St)) :
  forall r : RigidBodyRenderer.t,
    Forall keeps_poses calls ->
    exists r' outs,
      exec_all r calls = Returns (r', outs) /\
      length outs = length calls /\
      R_ r' = R_ r /\ t_ r' = t_ r /\
      vertices_ r' = vertices_ r /\ indices_ r' = indices_ r.
Proof.
  induction calls as [|call calls IH]; intros r Hkeep.
  - by exists r, [].
  - inversion Hkeep as [|? ? Hcall Hcalls]; subst.
    destruct (exec_keeps_poses_total r call Hcall) as (r1 & out & Hexec).
    destruct (exec_keeps_poses r r1 call out Hcall Hexec)
      as (HR & Ht & Hv & Hi).
    destruct (IH r1 Hcalls) as (r2 & outs & Hall & Hlen & HR' & Ht' & Hv' & Hi').
    exists r2, (out :: outs). cbn [exec_all]. rewrite Hexec. cbn.
    rewrite Hall. cbn. repeat split; simpl; congruence.
Qed.

End Calls.

(** ** The ray-casting kernel *)

Section KernelFacts.

Context `{Kernel}.

Lemma valid_hit_None camera_matrix row col R t triangle :
  (forall d, ray_triangle camera_matrix row col R t triangle = Some d ->
             F32.ltb F32.zero d = false) ->
  valid_hit camera_matrix row col R t triangle = None.
Proof.
  intros Hno. unfold valid_hit.
  destruct (ray_triangle _ _ _ _ _ _) as [d|]; [|done].
  by rewrite (Hno d).
Qed.

(** A body none of whose triangles is hit validly leaves the nearest hit
    so far as it was. *)
Lemma cast_triangles_no_hit camera_matrix row col vertices R t body triangles :
  forall best,
    (forall index triangle,
       index ∈ triangles -> triangle_of vertices index = Some triangle ->
       valid_hit camera_matrix row col R t triangle = None) ->
    fold_left (cast_triangle camera_matrix row col vertices R t body)
      triangles best = best.
Proof.
  induction triangles as [|index triangles IH]; intros best Hno; [done|].
  cbn [fold_left].
  assert (cast_triangle camera_matrix row col vertices R t body best index
          = best) as ->.
  { unfold cast_triangle.
    destruct (triangle_of vertices index) as [triangle|] eqn:Htri; [|done].
    cbn. by rewrite (Hno index triangle) by (done || constructor). }
  apply IH. intros index' triangle Hin. apply Hno. by constructor.
Qed.

Lemma cast_body_no_hit r camera_matrix row col best body :
  no_valid_hit r camera_matrix row col ->
  cast_body r camera_matrix row col best body = best.
Proof.
  intros Hno. unfold cast_body.
  destruct (vertices_ r !! body) as [vertices|] eqn:Hv; [|done].
  destruct (indices_ r !! body) as [triangles|] eqn:Hi; [|done].
  destruct (R_ r !! body) as [R|] eqn:HR; [|done].
  destruct (t_ r !! body) as [t|] eqn:Ht; [|done].
  apply cast_triangles_no_hit. intros index triangle Hin Htri.
  apply valid_hit_None. intros d Hd.
  by apply (Hno body vertices triangles R t index triangle d).
Qed.

Lemma cast_pixel_no_hit r camera_matrix row col :
  no_valid_hit r camera_matrix row col ->
  cast_pixel r camera_matrix row col = None.
Proof.
  intros Hno. unfold cast_pixel.
  induction (seq 0 (body_count r)) as [|body bodies IH]; [done|].
  cbn [fold_left]. by rewrite cast_body_no_hit.
Qed.

(** Row-major order: the pixel at ([row], [col]) is pixel
    [row * n_cols + col]. *)
Lemma pixels_lookup n_rows n_cols row col :
  0 <= row < n_rows -> 0 <= col < n_cols ->
  pixels n_rows n_cols !! Z.to_nat (row * n_cols + col) = Some (row, col).
Proof.
  intros Hrow Hcol. unfold pixels.
  rewrite list_lookup_fmap, lookup_seqZ_lt by nia.
  cbn. rewrite Z2Nat.id, Z.add_0_l by nia. f_equal. f_equal.
  - rewrite Z.div_add_l by lia. rewrite Z.div_small by lia. lia.
  - rewrite Z.add_comm, Z.mod_add by lia. apply Z.mod_small. lia.
Qed.

(** What the kernel reads of the renderer: the meshes and the poses. *)
Lemma cast_pixel_reads (r1 r2 : RigidBodyRenderer.t) camera_matrix row col :
  vertices_ r1 = vertices_ r2 -> indices_ r1 = indices_ r2 ->
  R_ r1 = R_ r2 -> t_ r1 = t_ r2 ->
  cast_pixel r1 camera_matrix row col = cast_pixel r2 camera_matrix row col.
Proof.
  intros Hv Hi HR Ht. unfold cast_pixel, body_count. rewrite Hv.
  generalize (@None (float * Z)).
  induction (seq 0 (length (vertices_ r2))) as [|body bodies IH];
    intros best; [done|].
  cbn [fold_left]. rewrite IH. f_equal.
  unfold cast_body. by rewrite Hv, Hi, HR, Ht.
Qed.

Lemma Render_reads (r1 r2 : RigidBodyRenderer.t) camera_matrix n_rows n_cols :
  vertices_ r1 = vertices_ r2 -> indices_ r1 = indices_ r2 ->
  R_ r1 = R_ r2 -> t_ r1 = t_ r2 ->
  Render r1 camera_matrix n_rows n_cols = Render r2 camera_matrix n_rows n_cols.
Proof.
  intros Hv Hi HR Ht. unfold Render.
  assert ((fun p : Z * Z => cast_pixel r1 camera_matrix p.1 p.2)
            <$> pixels n_rows n_cols
          = (fun p : Z * Z => cast_pixel r2 camera_matrix p.1 p.2)
            <$> pixels n_rows n_cols) as ->; [|done].
  apply list_fmap_ext. intros _ p _. by apply cast_pixel_reads.
Qed.

(** C8. A pixel through which no triangle of the scene is hit validly gets
    the non-finite "no hit" depth and the sentinel index, which is no body
    index; the render call returns. *)
Theorem C8_no_hit_pixel {St} `{RigidbodyState St}
    (r : RigidBodyRenderer.t) camera_matrix n_rows n_cols row col :
  0 <= row < n_rows -> 0 <= col < n_cols ->
  no_valid_hit r camera_matrix row col ->
  exists intersect_indices depth d,
    exec r (CallRender (S := St) camera_matrix n_rows n_cols)
    = Returns (r, Images intersect_indices depth) /\
    Render r camera_matrix n_rows n_cols = (intersect_indices, depth) /\
    depth !! Z.to_nat (row * n_cols + col) = Some d /\
    isfinite d = false /\
    intersect_indices !! Z.to_nat (row * n_cols + col) = Some sentinel_index /\
    sentinel_index < 0.
Proof.
  intros Hrow Hcol Hno.
  exists (Render r camera_matrix n_rows n_cols).1,
         (Render r camera_matrix n_rows n_cols).2, no_hit_depth.
  split; [done|]. split; [by destruct (Render _ _ _ _)|].
  unfold Render. cbn [fst snd].
  rewrite !list_lookup_fmap, pixels_lookup by done. cbn.
  rewrite cast_pixel_no_hit by done. cbn.
  repeat split; [apply no_hit_depth_not_finite | apply sentinel_index_no_body].
Qed.

End KernelFacts.

(** C8 at a triangle that every ray meets behind the camera, at depth -1. *)
Lemma C8_no_hit_pixel_witness :
  exists intersect_indices depth d,
    @Render (constant_depth_kernel F32.minus_one) one_triangle_scene
      Matrix_Zero 1 2 = (intersect_indices, depth) /\
    depth !! 1%nat = Some d /\ isfinite d = false /\
    intersect_indices !! 1%nat = Some (-1).
Proof.
  destruct (@C8_no_hit_pixel (constant_depth_kernel F32.minus_one)
              PoseList _ one_triangle_scene Matrix_Zero 1 2 0 1)
    as (intersect_indices & depth & d & _ & HR & Hd & Hf & Hi & _).
  - lia.
  - lia.
  - intros body vertices triangles R t index triangle d _ _ _ _ _ _ [= <-].
    reflexivity.
  - exists intersect_indices, depth, d. repeat split; assumption.
Defined.

(** ** The templates of the header *)

Section Templates.

Context `{Kernel} {St : Type} `{RigidbodyState St}.

Lemma Render_state_spec (r : RigidBodyRenderer.t) (state : St) :
  Render_state r state
  = r' ← set_poses r
           (component_rotation_matrix state <$> seq 0 (count_parts state))
           (component_position state <$> seq 0 (count_parts state));
    Returns (r', Render_depth r' (camera_matrix_ r) (n_rows_ r) (n_cols_ r)).
Proof.
  unfold Render_state. rewrite extract_poses_spec. cbv beta iota.
  destruct (set_poses r _ _) as [r'|e] eqn:Hset; [|done]. cbn.
  apply set_poses_Returns in Hset as (_ & _ & -> & -> & -> & _).
  done.
Qed.

(** The wide overload: the depth where it is finite, the caller's bad
    value elsewhere. *)
Lemma Render_VectorXd_spec (r : RigidBodyRenderer.t) (state : St) bad_value :
  Render_VectorXd r state bad_value
  = match Render_state r state with
    | Returns (r', depth_vector) =>
        Returns
          (r',
           (fun value =>
              if isfinite value then double_of_float value else bad_value)
           <$> depth_vector)
    | Throws e => Throws e
    end.
Proof.
  unfold Render_VectorXd.
  destruct (Render_state r state) as [[r' depth_vector]|e]; [|done].
  cbn. by rewrite fill_depth_image_all.
Qed.

(** The narrow overload: the depth where it is finite, positive infinity
    elsewhere, whatever the caller's bad value. *)
Lemma Render_VectorXf_spec (r : RigidBodyRenderer.t) (state : St) bad_value :
  Render_VectorXf r state bad_value
  = match Render_state r state with
    | Returns (r', depth_vector) =>
        Returns
          (r',
           (fun value => if isfinite value then value else F32.infinity)
           <$> depth_vector)
    | Throws e => Throws e
    end.
Proof.
  unfold Render_VectorXf.
  destruct (Render_state r state) as [[r' depth_vector]|e]; [|done].
  cbn. by rewrite fill_depth_image_all.
Qed.

Lemma Render_VectorXd_pixel (r r' : RigidBodyRenderer.t) (state : St)
    bad_value depth_vector (i : nat) value :
  Render_state r state = Returns (r', depth_vector) ->
  depth_vector !! i = Some value ->
  exists depth_image,
    Render_VectorXd r state bad_value = Returns (r', depth_image) /\
    depth_image !! i
    = Some (if isfinite value then double_of_float value else bad_value).
Proof.
  intros Hstate Hvalue. rewrite Render_VectorXd_spec, Hstate.
  eexists. split; [reflexivity|]. by rewrite list_lookup_fmap, Hvalue.
Qed.

Lemma Render_VectorXf_pixel (r r' : RigidBodyRenderer.t) (state : St)
    bad_value depth_vector (i : nat) value :
  Render_state r state = Returns (r', depth_vector) ->
  depth_vector !! i = Some value ->
  exists depth_image,
    Render_VectorXf r state bad_value = Returns (r', depth_image) /\
    depth_image !! i
    = Some (if isfinite value then value else F32.infinity).
Proof.
  intros Hstate Hvalue. rewrite Render_VectorXf_spec, Hstate.
  eexists. split; [reflexivity|]. by rewrite list_lookup_fmap, Hvalue.
Qed.

(** C6. [Render(state, depth_vector)] takes one rotation matrix and one
    translation per part of the state, in the order of the parts, hands
    exactly these two sequences to [set_poses], and renders with the cached
    camera matrix and resolution.  When the state has as many parts as the
    renderer has bodies the call returns, the poses of the renderer are
    these sequences, and they stay so through every later call that is not
    one of [set_poses] or of this overload: such calls render what they
    would render right after. *)
Theorem C6_render_state (r : RigidBodyRenderer.t) (state : St) :
  let rotations :=
    component_rotation_matrix state <$> seq 0 (count_parts state) in
  let translations :=
    component_position state <$> seq 0 (count_parts state) in
  extract_poses state = (rotations, translations) /\
  Render_state r state
  = (r' ← set_poses r rotations translations;
     Returns (r', Render_depth r' (camera_matrix_ r) (n_rows_ r) (n_cols_ r)))
  /\
  (count_parts state = body_count r ->
   exists r',
     Render_state r state
     = Returns (r', Render_depth r' (camera_matrix_ r) (n_rows_ r) (n_cols_ r))
     /\ R_ r' = rotations /\ t_ r' = translations /\
     camera_matrix_ r' = camera_matrix_ r /\
     n_rows_ r' = n_rows_ r /\ n_cols_ r' = n_cols_ r /\
     forall calls : list (Call St),
       Forall keeps_poses calls ->
       exists r'' outs,
         exec_all r' calls = Returns (r'', outs) /\
         R_ r'' = rotations /\ t_ r'' = translations /\
         forall camera_matrix n_rows n_cols,
           Render r'' camera_matrix n_rows n_cols
           = Render r' camera_matrix n_rows n_cols).
Proof.
  intros rotations translations.
  split; [apply extract_poses_spec|]. split; [apply Render_state_spec|].
  intros Hparts.
  destruct (set_poses_total r rotations translations) as [r' Hset].
  { unfold rotations. by rewrite length_fmap, length_seq. }
  { unfold translations. by rewrite length_fmap, length_seq. }
  exists r'. rewrite Render_state_spec. fold rotations translations.
  rewrite Hset.
  destruct (set_poses_Returns _ _ _ _ Hset)
    as (HR & Ht & Hcam & Hrows & Hcols & _).
  repeat (split; [done|]).
  intros calls Hkeep.
  destruct (exec_all_keeps_poses calls r' Hkeep)
    as (r'' & outs & Hall & _ & HR' & Ht' & Hv' & Hi').
  exists r'', outs. split; [done|].
  split; [congruence|]. split; [congruence|].
  intros camera_matrix n_rows n_cols. by apply Render_reads.
Qed.

End Templates.

(** C6 at a scene of one body and a state of one part. *)
Lemma C6_render_state_witness :
  let K := constant_depth_kernel F32.one in
  let state : PoseList := [(Matrix_Zero, mkVector F64.one F64.zero F64.zero)] in
  exists r' depth_vector,
    @Render_state K PoseList _ one_triangle_scene state
    = Returns (r', depth_vector) /\
    R_ r' = [Matrix_Zero] /\
    t_ r' = [mkVector F64.one F64.zero F64.zero] /\
    @Render_depth K r' Matrix_Zero 1 2 = depth_vector.
Proof.
  intros K state.
  destruct (@C6_render_state K PoseList _ one_triangle_scene state)
    as (_ & _ & Hreturns).
  destruct Hreturns as (r' & Hr & HR & Ht & _); [reflexivity|].
  exists r', (@Render_depth K r' Matrix_Zero 1 2).
  repeat split; assumption.
Defined.

(** C3, the narrow overload at a bad value that is not positive infinity.
    In a scene of no body the one pixel is not hit, and its depth is the
    non-finite marker.  Called with the bad value 0, the narrow overload
    writes positive infinity there; the wide overload writes the bad value
    it was called with. *)
Theorem C3_narrow_overload_ignores_bad_value `{Kernel} :
  let state : PoseList := [] in
  exists r',
    Render_state empty_scene state = Returns (r', [no_hit_depth]) /\
    isfinite no_hit_depth = false /\
    Render_VectorXf empty_scene state F32.zero = Returns (r', [F32.infinity]) /\
    Render_VectorXd empty_scene state F64.zero = Returns (r', [F64.zero]).
Proof.
  intros state. exists empty_scene.
  assert (Render_state empty_scene state
          = Returns (empty_scene, [no_hit_depth])) as Hstate by reflexivity.
  split; [exact Hstate|]. split; [apply no_hit_depth_not_finite|].
  rewrite Render_VectorXf_spec, Render_VectorXd_spec, Hstate. cbn.
  by rewrite no_hit_depth_not_finite.
Qed.

(** * Further properties of the state vector *)

(** ** Index arithmetic without wrap-around *)

Lemma block_start_no_wrap i off :
  0 <= i -> 0 <= off -> 13 * i + off < 2 ^ 63 ->
  block_start i off = 13 * i + off.
Proof.
  intros Hi Hoff Hfit. unfold block_start, COUNT_PER_BODY.
  rewrite (wrap_size_t_small (i * 13)) by lia.
  rewrite wrap_size_t_small by lia.
  rewrite Index_of_size_t_small by lia. lia.
Qed.

Lemma view_no_wrap a s i :
  0 <= i -> 13 * i + 13 <= 2 ^ 63 ->
  view a s i = VectorBlock_of s (13 * i + accessor_index a) (accessor_count a).
Proof.
  intros Hi Hfit. destruct a; cbn [view accessor_index accessor_count].
  - unfold position, POSITION_INDEX. by rewrite block_start_no_wrap by lia.
  - unfold orientation, ORIENTATION_INDEX.
    by rewrite block_start_no_wrap by lia.
  - unfold linear_velocity, LINEAR_VELOCITY_INDEX.
    by rewrite block_start_no_wrap by lia.
  - unfold angular_velocity, ANGULAR_VELOCITY_INDEX.
    by rewrite block_start_no_wrap by lia.
  - unfold single_body, COUNT_PER_BODY.
    rewrite wrap_size_t_small, Index_of_size_t_small by lia.
    f_equal. lia.
Qed.

(** A get function returns what the view of its accessor reads. *)
Lemma VectorBlock_of_read s start n :
  VectorBlock_of s start n ≫= read s = middleRows (vector s) start n.
Proof.
  unfold VectorBlock_of, middleRows.
  destruct (block_in_range (vector s) start n) eqn:Hr; [|done].
  cbn. unfold read, middleRows. cbn. by rewrite Hr.
Qed.

Lemma get_is_read a s i : get a s i = view a s i ≫= read s.
Proof.
  destruct a; cbn [get view]; [| | | |done];
    unfold get_position, position, get_orientation, orientation,
      get_linear_velocity, linear_velocity, get_angular_velocity,
      angular_velocity; by rewrite VectorBlock_of_read.
Qed.

(** What a write through the view of an accessor does to the vector. *)
Lemma write_through_view a s i b vals s' :
  0 <= i < countBodies s ->
  view a s i = Some b -> write s b vals = Some s' ->
  b = mkVectorBlock (13 * i + accessor_index a) (accessor_count a) /\
  Z.of_nat (length vals) = accessor_count a /\
  count_bodies_ s' = count_bodies_ s /\
  rows (vector s') = rows (vector s) /\
  13 * i + accessor_index a + accessor_count a <= rows (vector s) /\
  assign_block (vector s) (13 * i + accessor_index a) vals = Some (vector s').
Proof.
  intros Hi Hview Hwrite. pose proof (countBodies_range s) as Hc.
  rewrite view_small in Hview by lia.
  apply VectorBlock_of_Some in Hview as (-> & Hstart & Hfit).
  apply write_Some in Hwrite as (Hlen & Hcount & Hassign).
  cbn [startRow blockRows] in *.
  pose proof (assign_block_rows _ _ _ _ Hassign). by repeat split.
Qed.

(** ** Writing, then getting *)

(** X1. After an assignment through the view of an accessor at body [i], the
    get function of that accessor returns the assigned values as they are
    (an orientation is not normalised: [get_quaternion] has exactly the four
    assigned coefficients), and the get functions of the other bodies and of
    the disjoint fields of body [i] return what they returned before. *)
Theorem get_after_write a (s : FullRigidBodySystem.t) i b vals s' :
  0 <= i < countBodies s ->
  view a s i = Some b -> write s b vals = Some s' ->
  get a s' i = Some vals /\
  (a = AOrientation ->
   get_quaternion s' i = Eigen.Quaternion_of_vector vals) /\
  (forall a' i',
     0 <= i' < countBodies s -> i' <> i \/ fields_disjoint a a' ->
     get a' s' i' = get a' s i').
Proof.
  intros Hi Hview Hwrite. pose proof (countBodies_range s) as Hc.
  destruct (write_through_view a s i b vals s' Hi Hview Hwrite)
    as (-> & Hlen & Hcount & Hrows & Hfit & Hassign).
  pose proof (accessor_in_body a) as (Ha0 & Ha1 & Ha2).
  assert (get a s' i = Some vals) as Hget.
  { rewrite get_is_read, view_small by lia.
    rewrite VectorBlock_of_read.
    apply middleRows_ext; [lia.. | |].
    - rewrite <- Hlen. lia.
    - intros k Hk. apply (assign_block_inside _ _ _ _ k Hassign). lia. }
  split; [done|]. split.
  - intros ->. unfold get_quaternion. cbn [get] in Hget. by rewrite Hget.
  - intros a' i' Hi' Hapart.
    pose proof (accessor_in_body a') as (Ha0' & Ha1' & Ha2').
    rewrite !get_is_read, !view_small, !VectorBlock_of_read by lia.
    apply middleRows_frame; [done|]. intros j Hj.
    apply (assign_block_outside _ _ _ _ _ Hassign).
    unfold fields_disjoint in Hapart. lia.
Qed.

(** At a state of two bodies: the orientation of the second body is set to
    (1, 1, 1, 1). *)
Lemma get_after_write_witness :
  exists s b s',
    construct (Dynamic 2) = Some s /\ orientation s 1 = Some b /\
    write s b [F64.one; F64.one; F64.one; F64.one] = Some s' /\
    get_orientation s' 1 = Some [F64.one; F64.one; F64.one; F64.one] /\
    get_quaternion s' 1
    = Some (Eigen.mkQuaternion F64.one F64.one F64.one F64.one) /\
    get_orientation s' 0 = get_orientation s 0.
Proof.
  eexists. eexists. eexists.
  split; [vm_compute; reflexivity|].
  split; [vm_compute; reflexivity|].
  split; [vm_compute; reflexivity|].
  match goal with |- get_orientation ?s' _ = _ /\ _ /\ _ = get_orientation ?s _ =>
    destruct (get_after_write AOrientation s 1 (mkVectorBlock 16 4)
                [F64.one; F64.one; F64.one; F64.one] s')
      as (Hget & Hq & Hothers)
  end; [vm_compute; split; congruence | reflexivity | reflexivity |].
  split; [exact Hget|]. split; [exact (Hq eq_refl)|].
  apply (Hothers AOrientation 0); [vm_compute; split; congruence | left; lia].
Defined.

Lemma view_Some a (s : FullRigidBodySystem.t) i b :
  view a s i = Some b ->
  0 <= startRow b /\ startRow b + blockRows b <= rows (vector s) /\
  blockRows b = accessor_count a.
Proof.
  destruct a; cbn [view accessor_count];
    unfold position, orientation, linear_velocity, angular_velocity,
      single_body;
    intros (-> & ? & ?)%VectorBlock_of_Some; by repeat split.
Qed.

(** X2. A view that an accessor has yielded can always be assigned a vector
    of its size: the assignment returns, the view then reads the assigned
    values, and neither the size of the vector nor the body count has
    changed, so that every accessor yields after the assignment the view it
    yielded before (views taken earlier stay bound to the same components). *)
Theorem obtained_view_is_writable a (s : FullRigidBodySystem.t) i b vals :
  view a s i = Some b -> Z.of_nat (length vals) = blockRows b ->
  exists s',
    write s b vals = Some s' /\ read s' b = Some vals /\
    countBodies s' = countBodies s /\ countState s' = countState s /\
    (well_formed s <-> well_formed s') /\
    forall a' i', view a' s' i' = view a' s i'.
Proof.
  intros (Hstart & Hfit & Hcount)%view_Some Hlen.
  destruct (assign_block (vector s) (startRow b) vals) as [v|] eqn:Hassign;
    [|rewrite assign_block_in_range in Hassign by lia; done].
  pose proof (assign_block_rows _ _ _ _ Hassign) as Hrows.
  exists (Base v (count_bodies_ s)).
  split; [unfold write; by rewrite decide_True, Hassign by done|].
  split.
  { unfold read. cbn [vector]. apply middleRows_ext; [lia.. | |].
    - rewrite <- Hlen. lia.
    - intros k Hk. apply (assign_block_inside _ _ _ _ k Hassign). lia. }
  split; [done|].
  split; [unfold countState, RigidBodySystem.countState; cbn; by rewrite Hrows|].
  split; [unfold well_formed; cbn [vector]; by rewrite Hrows|].
  intros a' i'.
  destruct a'; cbn [view];
    unfold position, orientation, linear_velocity, angular_velocity,
      single_body, VectorBlock_of, block_in_range; cbn [vector];
    by rewrite Hrows.
Qed.

Lemma obtained_view_is_writable_witness :
  exists s b s',
    construct (Dynamic 1) = Some s /\ position s 0 = Some b /\
    write s b [F64.one; F64.one; F64.one] = Some s' /\
    read s' b = Some [F64.one; F64.one; F64.one] /\
    angular_velocity s' 0 = angular_velocity s 0.
Proof.
  eexists. eexists.
  match goal with
  | |- exists s', construct _ = Some ?s /\ position _ _ = Some ?b /\ _ =>
      assert (construct (Dynamic 1) = Some s) as Hs
        by (vm_compute; reflexivity);
      assert (position s 0 = Some b) as Hb by (vm_compute; reflexivity);
      destruct (obtained_view_is_writable APosition s 0 b
                  [F64.one; F64.one; F64.one])
        as (s' & Hwrite & Hread & _ & _ & _ & Hviews)
  end; [exact Hb | reflexivity |].
  exists s'. repeat split; try assumption.
  exact (Hviews AAngularVelocity 0).
Defined.

(** ** The block of a body and its four fields *)

Lemma middleRows_split (v : StateVector) start n1 n2 xs :
  0 <= n1 -> 0 <= n2 ->
  middleRows v start (n1 + n2) = Some xs ->
  middleRows v start n1 = Some (take (Z.to_nat n1) xs) /\
  middleRows v (start + n1) n2 = Some (drop (Z.to_nat n1) xs).
Proof.
  intros Hn1 Hn2 (H0 & H1 & ->)%middleRows_Some.
  rewrite !middleRows_in_range by lia.
  rewrite (Z2Nat.inj_add n1 n2) by lia. split; f_equal.
  - rewrite take_take. f_equal. lia.
  - rewrite <- take_drop_commute, drop_drop. do 2 f_equal. lia.
Qed.

(** X3. The thirteen components under [operator[]] are position,
    orientation, linear velocity and angular velocity, in this order, with
    nothing between them and nothing shared. *)
Theorem body_block_is_its_fields (s : FullRigidBodySystem.t) i :
  well_formed s -> 0 <= i < countBodies s ->
  exists p o l w,
    get_position s i = Some p /\ get_orientation s i = Some o /\
    get_linear_velocity s i = Some l /\ get_angular_velocity s i = Some w /\
    length p = 3%nat /\ length o = 4%nat /\
    length l = 3%nat /\ length w = 3%nat /\
    single_body s i ≫= read s = Some (p ++ o ++ l ++ w).
Proof.
  intros Hwf Hi. pose proof (countBodies_range s) as Hc.
  pose proof (well_formed_body s i Hwf Hi) as Hfit.
  unfold get_position, get_orientation, get_linear_velocity,
    get_angular_velocity, single_body. unfold_layout.
  rewrite !block_start_small, single_body_start_small by lia.
  rewrite VectorBlock_of_read.
  destruct (middleRows (vector s) (13 * i) 13) as [xs|] eqn:Hall;
    [|rewrite middleRows_in_range in Hall by lia; done].
  pose proof (middleRows_length _ _ _ _ Hall ltac:(lia)) as Hlen.
  destruct (middleRows_split (vector s) (13 * i) 3 10 xs) as [Hp Hrest];
    [lia | lia | done |].
  destruct (middleRows_split (vector s) (13 * i + 3) 4 6
              (drop (Z.to_nat 3) xs)) as [Ho Hrest'];
    [lia | lia | exact Hrest |].
  destruct (middleRows_split (vector s) (13 * i + 3 + 4) 3 3
              (drop (Z.to_nat 4) (drop (Z.to_nat 3) xs))) as [Hl Hw];
    [lia | lia | exact Hrest' |].
  replace (13 * i + 0) with (13 * i) by lia.
  replace (13 * i + 7) with (13 * i + 3 + 4) by lia.
  replace (13 * i + 10) with (13 * i + 3 + 4 + 3) by lia.
  rewrite Hp, Ho, Hl, Hw. eexists _, _, _, _.
  repeat (split; [reflexivity|]).
  rewrite !length_take, !length_drop.
  repeat (split; [lia|]).
  by rewrite !take_drop.
Qed.

Lemma body_block_is_its_fields_witness :
  exists s p o l w,
    construct (Fixed 2) = Some s /\
    get_position s 1 = Some p /\ get_orientation s 1 = Some o /\
    get_linear_velocity s 1 = Some l /\ get_angular_velocity s 1 = Some w /\
    single_body s 1 ≫= read s = Some (p ++ o ++ l ++ w).
Proof.
  eexists. 
  match goal with |- exists p o l w, construct _ = Some ?s /\ _ =>
    assert (construct (Fixed 2) = Some s) as Hs by (vm_compute; reflexivity);
    destruct (body_block_is_its_fields s 1)
      as (p & o & l & w & Hp & Ho & Hl & Hw & _ & _ & _ & _ & Hall)
  end; [vm_compute; congruence | vm_compute; split; congruence |].
  exists p, o, l, w. by repeat split.
Defined.

(** ** Writes to separate components commute *)

Lemma assign_block_commute (v : StateVector) start1 vals1 start2 vals2 v1 v2 :
  assign_block v start1 vals1 = Some v1 ->
  assign_block v start2 vals2 = Some v2 ->
  start1 + Z.of_nat (length vals1) <= start2 \/
  start2 + Z.of_nat (length vals2) <= start1 ->
  exists v',
    assign_block v1 start2 vals2 = Some v' /\
    assign_block v2 start1 vals1 = Some v'.
Proof.
  intros H1 H2 Hapart.
  pose proof (assign_block_rows _ _ _ _ H1) as Hrows1.
  pose proof (assign_block_rows _ _ _ _ H2) as Hrows2.
  pose proof (assign_block_Some _ _ _ _ H1) as (Hs1 & Hfit1 & _).
  pose proof (assign_block_Some _ _ _ _ H2) as (Hs2 & Hfit2 & _).
  destruct (assign_block v1 start2 vals2) as [v12|] eqn:H12;
    [|rewrite assign_block_in_range in H12 by lia; done].
  destruct (assign_block v2 start1 vals1) as [v21|] eqn:H21;
    [|rewrite assign_block_in_range in H21 by lia; done].
  exists v12. split; [done|]. f_equal. apply list_eq. intros j.
  destruct (decide (start1 <= Z.of_nat j < start1 + Z.of_nat (length vals1)))
    as [Hin1|Hout1].
  - rewrite (assign_block_outside _ _ _ _ j H12) by lia.
    replace j with (Z.to_nat (start1 + (Z.of_nat j - start1))) by lia.
    rewrite (assign_block_inside _ _ _ _ _ H1) by lia.
    by rewrite (assign_block_inside _ _ _ _ _ H21) by lia.
  - rewrite (assign_block_outside _ _ _ _ j H21) by lia.
    destruct (decide (start2 <= Z.of_nat j < start2 + Z.of_nat (length vals2)))
      as [Hin2|Hout2].
    + replace j with (Z.to_nat (start2 + (Z.of_nat j - start2))) by lia.
      rewrite (assign_block_inside _ _ _ _ _ H12) by lia.
      by rewrite (assign_block_inside _ _ _ _ _ H2) by lia.
    + rewrite (assign_block_outside _ _ _ _ j H12) by lia.
      rewrite (assign_block_outside _ _ _ _ j H1) by lia.
      by rewrite (assign_block_outside _ _ _ _ j H2) by lia.
Qed.

(** X4. Two assignments through views of different bodies, or of disjoint
    fields of one body, give the same state in either order. *)
Theorem writes_commute a1 a2 (s : FullRigidBodySystem.t) i1 i2 b1 b2
    vals1 vals2 s1 s2 :
  0 <= i1 < countBodies s -> 0 <= i2 < countBodies s ->
  i1 <> i2 \/ fields_disjoint a1 a2 ->
  view a1 s i1 = Some b1 -> view a2 s i2 = Some b2 ->
  write s b1 vals1 = Some s1 -> write s b2 vals2 = Some s2 ->
  exists s', write s1 b2 vals2 = Some s' /\ write s2 b1 vals1 = Some s'.
Proof.
  intros Hi1 Hi2 Hapart Hv1 Hv2 Hw1 Hw2.
  destruct (write_through_view a1 s i1 b1 vals1 s1 Hi1 Hv1 Hw1)
    as (-> & Hlen1 & Hcount1 & Hrows1 & Hfit1 & Hassign1).
  destruct (write_through_view a2 s i2 b2 vals2 s2 Hi2 Hv2 Hw2)
    as (-> & Hlen2 & Hcount2 & Hrows2 & Hfit2 & Hassign2).
  pose proof (accessor_in_body a1) as (? & ? & ?).
  pose proof (accessor_in_body a2) as (? & ? & ?).
  destruct (assign_block_commute _ _ _ _ _ _ _ Hassign1 Hassign2)
    as (v' & H12 & H21).
  { unfold fields_disjoint in Hapart. lia. }
  exists (Base v' (count_bodies_ s)).
  unfold write. cbn [startRow blockRows].
  rewrite !decide_True by done. rewrite H12, H21. cbn.
  by rewrite Hcount1, Hcount2.
Qed.

Lemma writes_commute_witness :
  exists s s1 s2 s',
    construct (Dynamic 2) = Some s /\
    write s (mkVectorBlock 0 3) [F64.one; F64.one; F64.one] = Some s1 /\
    write s (mkVectorBlock 23 3) [F64.one; F64.one; F64.one] = Some s2 /\
    write s1 (mkVectorBlock 23 3) [F64.one; F64.one; F64.one] = Some s' /\
    write s2 (mkVectorBlock 0 3) [F64.one; F64.one; F64.one] = Some s'.
Proof.
  eexists. eexists. eexists.
  match goal with
  | |- exists s', construct _ = Some ?s /\ write _ ?b1 ?v1 = Some ?s1 /\
                  write _ ?b2 ?v2 = Some ?s2 /\ _ =>
      assert (construct (Dynamic 2) = Some s) as Hs
        by (vm_compute; reflexivity);
      assert (write s b1 v1 = Some s1) as Hw1 by (vm_compute; reflexivity);
      assert (write s b2 v2 = Some s2) as Hw2 by (vm_compute; reflexivity);
      destruct (writes_commute APosition AAngularVelocity s 0 1 b1 b2
                  v1 v2 s1 s2) as (s' & H12 & H21)
  end;
    [vm_compute; split; congruence | vm_compute; split; congruence
    | left; lia | reflexivity | reflexivity | exact Hw1 | exact Hw2 |].
  exists s'. by repeat split.
Defined.

(** ** When the constructors return *)

(** X5. The fixed constructor returns for every body count that the type
    admits; the dynamic constructor returns exactly when the state size
    [count_bodies * 13] has not wrapped around in [unsigned] arithmetic (a
    wrapped size leaves the vector too short for the quaternion reset); the
    constructor from a sequence always returns. *)
Theorem construction_returns_iff (c : Construction) :
  is_Some (construct c) <->
  match c with
  | Fixed body_size => 0 <= body_size /\ 13 * body_size <= INT_MAX
  | Dynamic count_bodies => 13 * wrap_unsigned count_bodies < 2 ^ 32
  | FromVector _ => True
  end.
Proof.
  split; [|apply construct_total].
  intros [s Hs]. destruct c as [n|n|v]; simpl in Hs; [| |done].
  - apply new_fixed_Some in Hs as (? & ? & _). done.
  - apply new_dynamic_Some in Hs as (? & _). done.
Qed.

(** X6. For a body count that both admit, the fixed and the dynamic
    constructor return the same state: of that many bodies and thirteen
    times as many scalars. *)
Theorem fixed_is_dynamic (n : Z) :
  0 <= n -> 13 * n <= INT_MAX ->
  exists s,
    construct (Fixed n) = Some s /\ construct (Dynamic n) = Some s /\
    countBodies s = n /\ countState s = 13 * n.
Proof.
  intros Hn Hfit. unfold INT_MAX in Hfit.
  destruct (construct_total (Fixed n)) as [s Hs]; [done|].
  exists s. split; [done|].
  pose proof Hs as Hfixed. simpl in Hs.
  apply new_fixed_Some in Hs as (_ & _ & Hreset).
  split.
  - simpl. unfold new_dynamic. cbv zeta.
    rewrite (wrap_unsigned_small n) by lia.
    rewrite wrap_unsigned_small by (unfold COUNT_PER_BODY; lia).
    exact Hreset.
  - destruct (zero_initialising_sizes (Fixed n) s I Hfixed) as [Hsize Hsmall].
    apply reset_zero_state in Hreset as (Hc & Hrows & _); [|lia..].
    split; [done|].
    unfold countState, RigidBodySystem.countState.
    rewrite Hrows. apply wrap_unsigned_small. lia.
Qed.

Lemma fixed_is_dynamic_witness :
  exists s,
    construct (Fixed 3) = Some s /\ construct (Dynamic 3) = Some s /\
    countBodies s = 3 /\ countState s = 39.
Proof. apply (fixed_is_dynamic 3); vm_compute; congruence. Defined.

(** ** Accessors out of range *)

(** X7. On a state whose vector is made of its body blocks and nothing else,
    an accessor yields a view, and its get function a value, exactly for the
    body indices below the body count (for indices whose flat index does not
    wrap around). *)
Theorem accessor_in_range_iff a (s : FullRigidBodySystem.t) i :
  whole_blocks s -> 0 <= i -> 13 * i + 13 <= 2 ^ 63 ->
  (is_Some (view a s i) <-> i < countBodies s) /\
  (is_Some (get a s i) <-> i < countBodies s).
Proof.
  intros Hwhole Hi Hfit. unfold whole_blocks, COUNT_PER_BODY in Hwhole.
  pose proof (accessor_in_body a) as (Ha0 & Ha1 & Ha2).
  assert (is_Some (view a s i) <-> i < countBodies s) as Hview.
  { rewrite view_no_wrap by lia. split.
    - intros [b (_ & _ & Hb)%VectorBlock_of_Some]. lia.
    - intros Hlt. rewrite VectorBlock_of_in_range by lia. by eexists. }
  split; [done|]. rewrite <- Hview, get_is_read. split.
  - intros [xs Hxs]. destruct (view a s i); [by eexists | done].
  - intros [b Hb]. rewrite Hb. cbn.
    rewrite view_no_wrap in Hb by lia.
    apply VectorBlock_of_Some in Hb as (-> & ? & ?).
    unfold read. cbn. rewrite middleRows_in_range by lia. by eexists.
Qed.

Lemma accessor_in_range_iff_witness :
  exists s,
    construct (Dynamic 2) = Some s /\
    is_Some (orientation s 1) /\ orientation s 2 = None /\
    get_position s 2 = None.
Proof.
  eexists. split; [vm_compute; reflexivity|].
  match goal with |- is_Some (orientation ?s _) /\ _ =>
    destruct (accessor_in_range_iff AOrientation s 1) as [[_ Hin] _]
  end; [reflexivity | lia | vm_compute; congruence |].
  split; [apply Hin; vm_compute; congruence|]. split; reflexivity.
Defined.

(** ** Copying a state through its scalars *)

(** X8. The constructor from a sequence, given the scalars of a state that a
    constructor returned, returns that state again, body count included. *)
Theorem copy_through_vector (c : Construction) (s : FullRigidBodySystem.t) :
  construct c = Some s -> construct (FromVector (vector s)) = Some s.
Proof.
  intros Hs. cbn [construct]. unfold new_from_vector. f_equal.
  assert (rows (vector s) ÷ COUNT_PER_BODY = count_bodies_ s) as Hcount.
  { destruct c as [n|n|v].
    - destruct (construct_zero_initialising (Fixed n) s I Hs)
        as (m & Hm & Hfit & Hr).
      pose proof (reset_quaternions_Some _ _ Hr) as [-> _].
      apply reset_zero_state in Hr as (_ & -> & _); [|lia..].
      unfold COUNT_PER_BODY. cbn [count_bodies_ zero_state].
      rewrite Z.quot_div_nonneg by lia.
      rewrite Z.mul_comm. apply Z.div_mul. lia.
    - destruct (construct_zero_initialising (Dynamic n) s I Hs)
        as (m & Hm & Hfit & Hr).
      pose proof (reset_quaternions_Some _ _ Hr) as [-> _].
      apply reset_zero_state in Hr as (_ & -> & _); [|lia..].
      unfold COUNT_PER_BODY. cbn [count_bodies_ zero_state].
      rewrite Z.quot_div_nonneg by lia.
      rewrite Z.mul_comm. apply Z.div_mul. lia.
    - simpl in Hs. unfold new_from_vector in Hs. by injection Hs as <-. }
  rewrite Hcount. by destruct s.
Qed.

Lemma copy_through_vector_witness :
  exists s,
    construct (Dynamic 2) = Some s /\
    construct (FromVector (vector s)) = Some s.
Proof.
  eexists. split; [vm_compute; reflexivity|].
  match goal with |- construct (FromVector (vector ?s)) = _ =>
    apply (copy_through_vector (Dynamic 2) s)
  end. vm_compute. reflexivity.
Defined.

(** * Further properties of the dense render overloads *)

(** ** Widening a [float] *)

Lemma digits2_pos_iter_xO m p :
  Zpos (digits2_pos (Pos.iter xO m p))
  = Zpos (digits2_pos m) + Zpos p.
Proof.
  induction p as [|p IH] using Pos.peano_ind.
  - cbn. lia.
  - rewrite Pos.iter_succ. cbn [digits2_pos]. lia.
Qed.

(** A finite binary32 number widens to a finite binary64 number. *)
Lemma double_of_float_finite value :
  valid_binary F32.prec F32.emax value = true ->
  isfinite value = true ->
  isfinite (double_of_float value) = true.
Proof.
  destruct value as [s|s| |s m e]; try done.
  intros Hvalid _. cbn [valid_binary] in Hvalid.
  unfold bounded, canonical_mantissa, fexp, emin, F32.prec, F32.emax in Hvalid.
  apply andb_true_iff in Hvalid as [Hcanon Hmax].
  apply Z.eqb_eq in Hcanon. apply Z.leb_le in Hmax.
  set (d := Zpos (digits2_pos m)) in *.
  assert (1 <= d <= 24 /\ -149 <= e <= 104) as [Hd He] by (unfold d; lia).
  unfold double_of_float, binary_round, F64.prec, F64.emax.
  fold d.
  assert (fexp 53 1024 (d + e) = d + e - 53) as ->
    by (unfold fexp, emin; lia).
  unfold shl_align.
  destruct (d + e - 53 - e) as [|q|q] eqn:Hq; [lia | lia |].
  assert (Zpos q = 53 - d) as Hq' by lia.
  unfold binary_round_aux, shr_fexp.
  cbn [Zdigits2 shr_record_of_loc].
  rewrite digits2_pos_iter_xO. fold d. rewrite Hq'.
  assert (fexp 53 1024 (d + (53 - d) + (d + e - 53)) - (d + e - 53) = 0) as ->
    by (unfold fexp, emin; lia).
  cbn [shr shr_m loc_of_shr_record round_nearest_even Zdigits2
       shr_record_of_loc].
  rewrite digits2_pos_iter_xO. fold d. rewrite Hq'.
  assert (fexp 53 1024 (d + (53 - d) + (d + e - 53)) - (d + e - 53) = 0) as ->
    by (unfold fexp, emin; lia).
  cbn [shr shr_m].
  destruct (Z.leb_spec (d + e - 53) (1024 - 53)); [done | lia].
Qed.

Section DenseOverloads.

Context `{Kernel} {St : Type} `{RigidbodyState St}.

(** ** The wide overload *)

(** X9. The wide overload fails when [Render(state, depth_vector)] fails,
    with its error. When that returns, the wide overload returns with the
    same renderer; its image has one entry per pixel of the depth vector:
    the widened depth where the depth is finite, the bad value of the call
    where it is not. *)
Theorem wide_overload_image (r : RigidBodyRenderer.t) (state : St)
    (bad_value : double) :
  match Render_state r state with
  | Returns (r', depth_vector) =>
      exists depth_image,
        Render_VectorXd r state bad_value = Returns (r', depth_image) /\
        length depth_image = length depth_vector /\
        forall (i : nat) value,
          depth_vector !! i = Some value ->
          depth_image !! i
          = Some (if isfinite value then double_of_float value
                  else bad_value)
  | Throws e => Render_VectorXd r state bad_value = Throws e
  end.
Proof.
  rewrite Render_VectorXd_spec.
  destruct (Render_state r state) as [[r' depth_vector]|e]; [|done].
  eexists. split; [reflexivity|]. split; [by rewrite length_fmap|].
  intros i value Hvalue. by rewrite list_lookup_fmap, Hvalue.
Qed.

(** X10. With a finite bad value, the image of the wide overload holds
    finite values only, whatever the depths are (as long as they are
    binary32 numbers). *)
Theorem wide_overload_finite (r r' : RigidBodyRenderer.t) (state : St)
    (bad_value : double) depth_vector depth_image :
  isfinite bad_value = true ->
  Render_state r state = Returns (r', depth_vector) ->
  Forall (fun value => valid_binary F32.prec F32.emax value = true)
    depth_vector ->
  Render_VectorXd r state bad_value = Returns (r', depth_image) ->
  Forall (fun value => isfinite value = true) depth_image.
Proof.
  intros Hbad Hstate Hvalid. rewrite Render_VectorXd_spec, Hstate.
  intros [= <-]. apply Forall_fmap.
  eapply Forall_impl; [|exact Hvalid]. intros value Hv. cbn.
  destruct (isfinite value) eqn:Hfin; [|done].
  by apply double_of_float_finite.
Qed.

(** ** The narrow overload *)

(** X11. The narrow overload fails when [Render(state, depth_vector)] fails.
    When that returns, its image has one entry per pixel, and no entry is
    NaN or negative infinity: a finite depth is kept, every other depth
    becomes positive infinity. *)
Theorem narrow_overload_image (r : RigidBodyRenderer.t) (state : St)
    (bad_value : float) :
  match Render_state r state with
  | Returns (r', depth_vector) =>
      exists depth_image,
        Render_VectorXf r state bad_value = Returns (r', depth_image) /\
        length depth_image = length depth_vector /\
        (forall (i : nat) value,
           depth_vector !! i = Some value -> isfinite value = true ->
           depth_image !! i = Some value) /\
        Forall (fun value => isfinite value = true \/ value = F32.infinity)
          depth_image
  | Throws e => Render_VectorXf r state bad_value = Throws e
  end.
Proof.
  rewrite Render_VectorXf_spec.
  destruct (Render_state r state) as [[r' depth_vector]|e]; [|done].
  eexists. split; [reflexivity|]. split; [by rewrite length_fmap|]. split.
  - intros i value Hvalue Hfin. rewrite list_lookup_fmap, Hvalue. cbn.
    by rewrite Hfin.
  - apply Forall_fmap, Forall_forall. intros value _. cbn.
    destruct (isfinite value) eqn:Hfin; [by left | by right].
Qed.

(** ** The two overloads together *)

(** X12. Called with positive infinity, its default bad value, the wide
    overload writes the image of the narrow overload, widened entry by
    entry. *)
Theorem wide_default_is_widened_narrow (r : RigidBodyRenderer.t)
    (state : St) (bad_value : float) :
  Render_VectorXd r state (S754_infinity false)
  = match Render_VectorXf r state bad_value with
    | Returns (r', depth_image) =>
        Returns (r', double_of_float <$> depth_image)
    | Throws e => Throws e
    end.
Proof.
  rewrite Render_VectorXd_spec, Render_VectorXf_spec.
  destruct (Render_state r state) as [[r' depth_vector]|e]; [|done].
  f_equal. f_equal. rewrite <- list_fmap_compose.
  apply list_fmap_ext. intros _ value _. cbn.
  by destruct (isfinite value).
Qed.

End DenseOverloads.

(** A triangle met at depth 1 through both pixels, and the bad value 0. *)
Lemma wide_overload_finite_witness :
  let K := constant_depth_kernel F32.one in
  let state : PoseList := [(Matrix_Zero, Vector_Zero)] in
  exists r' depth_image,
    @Render_VectorXd K PoseList _ one_triangle_scene state F64.zero
    = Returns (r', depth_image) /\
    Forall (fun value => isfinite value = true) depth_image.
Proof.
  intros K state.
  eexists. eexists. split; [vm_compute; reflexivity|].
  match goal with |- Forall _ ?image =>
    apply (@wide_overload_finite K PoseList _ one_triangle_scene
             one_triangle_scene state F64.zero [F32.one; F32.one] image)
  end; [reflexivity | vm_compute; reflexivity | | vm_compute; reflexivity].
  repeat constructor.
Defined.

(** ** Repeated calls of the state-taking overloads *)

Section Repeated.

Context `{Kernel} {St : Type} `{RigidbodyState St}.




End Repeated.

